(** * Diagram rendering and document-export pipeline

    A shallow embedding of [docs/render_diagrams.py] and
    [docs/generate_pdf.py]: the two regular expressions and the text
    surgery built on them, the naming of the output files, and the two
    [main] coroutines run against a file store and a scripted browser. *)

From stdpp Require Import gmap strings list fin_maps pretty.
From Stdlib Require Import NArith Ascii.

Local Open Scope nat_scope.

(** ** Text

    A Python [str] is a sequence of code points.  The content of a file is
    kept as the sequence of the code points its bytes encode; reading it as
    text translates the line ends. *)

Definition char := N.
Definition text := list char.

Definition cr : char := 13%N.
Definition lf : char := 10%N.

(** Reading in text mode with the default [newline=None]: a carriage
    return followed by a line feed, or alone, is read as one line feed. *)
Fixpoint universal_newlines (s : text) : text :=
  match s with
  | [] => []
  | c :: s' =>
      if (c =? cr)%N then
        match s' with
        | c' :: s'' =>
            if (c' =? lf)%N then lf :: universal_newlines s''
            else lf :: universal_newlines s'
        | [] => [lf]
        end
      else c :: universal_newlines s'
  end.

Fixpoint lit (s : string) : text :=
  match s with
  | EmptyString => []
  | String a s' => N_of_ascii a :: lit s'
  end.

(** The double quote, kept as a code point. *)
Definition dq : char := 34%N.
Definition lt_sign : char := 60%N.

(** [\s] of a [str] pattern: the code points for which [str.isspace] holds. *)
Definition is_space (c : char) : bool :=
  ((9 <=? c) && (c <=? 13) || (28 <=? c) && (c <=? 32)
   || (c =? 133) || (c =? 160) || (c =? 5760)
   || (8192 <=? c) && (c <=? 8202)
   || (c =? 8232) || (c =? 8233) || (c =? 8239) || (c =? 8287)
   || (c =? 12288))%N.

(** [.] under [re.DOTALL]. *)
Definition any_char (_ : char) : bool := true.

(** The negated class of the CDN pattern: any character but the double quote. *)
Definition not_dq (c : char) : bool := negb (c =? dq)%N.

(** ** A backtracking matcher for the fragment of [re] the scripts use

    A pattern is a sequence of items: a literal, a greedy or lazy repetition
    of a one-character class, and the two ends of capture group 1.  The
    matcher tries alternatives in the order of the [re] engine: a greedy
    repetition from the longest run down, a lazy one from the empty run up;
    the first complete match wins. *)

Inductive item :=
| Lit (l : text)
| Plus (p : char -> bool)
| Star (p : char -> bool)
| LazyStar (p : char -> bool)
| GOpen
| GClose.

(** Offsets are counted from the position the match starts at. *)
Record mstate := MState { m_end : nat; m_gopen : nat; m_gclose : nat }.

Definition m_init : mstate := MState 0 0 0.
Definition advance (st : mstate) (n : nat) : mstate :=
  MState (m_end st + n) (m_gopen st) (m_gclose st).
Definition mark_open (st : mstate) : mstate :=
  MState (m_end st) (m_end st) (m_gclose st).
Definition mark_close (st : mstate) : mstate :=
  MState (m_end st) (m_gopen st) (m_end st).

Fixpoint strip_lit (l s : text) : option text :=
  match l, s with
  | [], _ => Some s
  | a :: l', b :: s' => if (a =? b)%N then strip_lit l' s' else None
  | _ :: _, [] => None
  end.

Section Repeat.
Context {R : Type} (p : char -> bool) (k : nat -> text -> option R).

Fixpoint greedy (n : nat) (s : text) : option R :=
  match s with
  | c :: s' =>
      if p c then
        match greedy (S n) s' with
        | Some r => Some r
        | None => k n s
        end
      else k n s
  | [] => k n s
  end.

Fixpoint lazy (n : nat) (s : text) : option R :=
  match k n s with
  | Some r => Some r
  | None =>
      match s with
      | c :: s' => if p c then lazy (S n) s' else None
      | [] => None
      end
  end.
End Repeat.

Fixpoint run (its : list item) (st : mstate) (s : text) : option mstate :=
  match its with
  | [] => Some st
  | Lit l :: r =>
      match strip_lit l s with
      | Some s' => run r (advance st (length l)) s'
      | None => None
      end
  | Plus p :: r =>
      match s with
      | c :: s' =>
          if p c then greedy p (fun n t => run r (advance st (S n)) t) 0 s'
          else None
      | [] => None
      end
  | Star p :: r => greedy p (fun n t => run r (advance st n) t) 0 s
  | LazyStar p :: r => lazy p (fun n t => run r (advance st n) t) 0 s
  | GOpen :: r => run r (mark_open st) s
  | GClose :: r => run r (mark_close st) s
  end.

(** [pattern.match] at the head of [s]. *)
Definition match_here (its : list item) (s : text) : option mstate :=
  run its m_init s.

(** [re.search]: the leftmost position with a match; [start] and [end_]
    are [match.start()] and [match.end()]. *)
Fixpoint search_from (its : list item) (i : nat) (s : text) : option (nat * nat) :=
  match match_here its s with
  | Some st => Some (i, i + m_end st)
  | None =>
      match s with
      | [] => None
      | _ :: s' => search_from its (S i) s'
      end
  end.

Definition re_search (its : list item) (s : text) : option (nat * nat) :=
  search_from its 0 s.

(** Group 1 of a match that starts at the head of [s]. *)
Definition group1 (st : mstate) (s : text) : text :=
  take (m_gclose st - m_gopen st) (drop (m_gopen st) s).

(** [re.findall] for a pattern with one group: the scanner walks the
    positions from left to right; [skip] counts the characters still covered
    by the last match.  After an empty match it moves on by one character
    (the patterns below cannot match the empty string). *)
Fixpoint findall_from (its : list item) (s : text) (skip : nat) : list text :=
  match s with
  | [] =>
      match skip with
      | 0 =>
          match match_here its [] with
          | Some st => [group1 st []]
          | None => []
          end
      | S _ => []
      end
  | _ :: s' =>
      match skip with
      | S j => findall_from its s' j
      | 0 =>
          match match_here its s with
          | Some st => group1 st s :: findall_from its s' (m_end st - 1)
          | None => findall_from its s' 0
          end
      end
  end.

Definition re_findall (its : list item) (s : text) : list text :=
  findall_from its s 0.

(** ** [render_diagrams.py]: extraction *)

Definition PRE_OPEN : text := Eval cbv in lit "<pre".
Definition PRE_CLASS : text :=
  Eval cbv in lit "class=" ++ [dq] ++ lit "mermaid" ++ [dq] ++ lit ">".
Definition PRE_CLOSE : text := Eval cbv in lit "</pre>".

(** The pattern of [extract_mermaid_blocks], compiled with [re.DOTALL]:
    the opening tag with its class attribute, optional white space, the
    lazily matched body as group 1, optional white space, the closing tag. *)
Definition MERMAID_BLOCK_RE : list item :=
  [Lit PRE_OPEN; Plus is_space; Lit PRE_CLASS; Star is_space;
   GOpen; LazyStar any_char; GClose; Star is_space; Lit PRE_CLOSE].

Definition extract_mermaid_blocks (html : text) : list text :=
  re_findall MERMAID_BLOCK_RE html.

(** ** Files, console and exceptions

    A path is the list of its components below the project root, so that
    [SCRIPT_DIR] (the directory of the two scripts) is [docs].  The store maps
    the paths of regular files to their contents; directories are not
    tracked, and the store never refuses a write or a removal. *)

Abbreviation path := (list string).

Definition PROJECT_ROOT : path := [].
Definition SCRIPT_DIR : path := ["docs"%string].
Definition HTML_PATH : path := SCRIPT_DIR ++ ["process_flows.html"%string].
Definition IMG_DIR : path := SCRIPT_DIR ++ ["diagram_images"%string].
Definition PDF_PATH : path := SCRIPT_DIR ++ ["process_flows.pdf"%string].
Definition MERMAID_JS : path :=
  PROJECT_ROOT ++ ["node_modules"; "mermaid"; "dist"; "mermaid.min.js"]%string.

Definition path_name (p : path) : string := default ""%string (last p).
Definition path_str (p : path) : string :=
  foldr (fun c acc => "/" +:+ c +:+ acc)%string ""%string p.

Inductive exn :=
| FileNotFoundError (p : path)
| LaunchError
| NavigationError
| NavigationTimeout
| WaitTimeout
| AttributeError
| ScreenshotError
| PdfError
| FileExistsError (p : path).

Inductive result (A : Type) :=
| Ok (a : A)
| Raise (e : exn).
Arguments Ok {A} a.
Arguments Raise {A} e.

Record world := World { w_fs : gmap path text; w_out : list string }.

(** A computation runs on the world and ends normally or by raising; what
    it did to the world before raising stays done. *)
Definition M (A : Type) : Type := world -> result A * world.

Definition ret {A} (a : A) : M A := fun w => (Ok a, w).
Definition raise {A} (e : exn) : M A := fun w => (Raise e, w).
Definition bind {A B} (m : M A) (f : A -> M B) : M B :=
  fun w =>
    match m w with
    | (Ok a, w') => f a w'
    | (Raise e, w') => (Raise e, w')
    end.

(** [try: body finally: cleanup]. *)
Definition try_finally {A} (body : M A) (cleanup : M unit) : M A :=
  fun w =>
    match body w with
    | (r, w') =>
        match cleanup w' with
        | (Ok _, w'') => (r, w'')
        | (Raise e, w'') => (Raise e, w'')
        end
    end.

#[global] Instance M_ret : MRet M := @ret.
#[global] Instance M_bind : MBind M := fun A B f m => bind m f.

(** [Path.read_text()]. *)
Definition read_text (p : path) : M text :=
  fun w =>
    match w_fs w !! p with
    | Some t => (Ok (universal_newlines t), w)
    | None => (Raise (FileNotFoundError p), w)
    end.

(** The text that [read_text] returns for the file at [p], if there is
    one. *)
Definition file_text (w : world) (p : path) : option text :=
  universal_newlines <$> w_fs w !! p.

(** [Path.write_text(t)]: on the platform of the scripts (the browser
    they launch is the Linux build) a line feed is written as it is. *)
Definition write_text (p : path) (t : text) : M unit :=
  fun w => (Ok tt, World (<[p := t]> (w_fs w)) (w_out w)).

(** [Path.mkdir(exist_ok=True)] below the directory of the scripts, which
    exists: it raises when the path is that of a regular file; otherwise
    the directory is there afterwards, and the store, which tracks regular
    files only, is as it was. *)
Definition mkdir_exist_ok (p : path) : M unit :=
  fun w =>
    match w_fs w !! p with
    | Some _ => (Raise (FileExistsError p), w)
    | None => (Ok tt, w)
    end.

(** [Path.unlink(missing_ok=True)]. *)
Definition unlink (p : path) : M unit :=
  fun w => (Ok tt, World (delete p (w_fs w)) (w_out w)).

Definition print (line : string) : M unit :=
  fun w => (Ok tt, World (w_fs w) (w_out w ++ [line])).

(** ** The headless browser

    What the scripts can see of a page: the elements of class [mermaid] in
    document order, for each the value of its [data-processed] attribute and
    whether it has an [svg] descendant.  A page is scripted by what the
    browser does with the document loaded: whether navigation completes in
    time, the documents seen by the successive evaluations of the waiting
    predicate until its timeout, the document after the settle delay, and
    what a capture returns. *)

Record container := Container {
  c_processed : option string;
  c_has_svg : bool
}.
Abbreviation dom := (list container).

Inductive element := SvgChild | ContainerEl.

Record page := Page {
  pg_goto : bool;
  pg_polls : list dom;
  pg_settled : dom;
  pg_shot : element -> option text;
  pg_pdf : option text
}.

Record browser := Browser {
  br_launch : bool;
  br_page : nat -> text -> page
}.

Definition launch (br : browser) : M unit :=
  if br_launch br then ret tt else raise LaunchError.

(** [page.goto] of the [n]-th page of the session on a local file. *)
Definition goto (br : browser) (n : nat) (p : path) : M page :=
  fun w =>
    match w_fs w !! p with
    | Some doc =>
        let pg := br_page br n doc in
        if pg_goto pg then (Ok pg, w) else (Raise NavigationTimeout, w)
    | None => (Raise NavigationError, w)
    end.

Definition wait_for_function (pred : dom -> bool) (pg : page) : M unit :=
  if existsb pred (pg_polls pg) then ret tt else raise WaitTimeout.

Definition rendered (d : container) : bool :=
  bool_decide (c_processed d = Some "true"%string) || c_has_svg d.

(** The predicate of [render_diagrams.py]: the first container exists and
    is processed or holds a vector graphic. *)
Definition diagram_ready (d : dom) : bool :=
  match d with
  | [] => false
  | c :: _ => rendered c
  end.

(** The predicate of [generate_pdf.py]. *)
Definition all_diagrams_ready (d : dom) : bool :=
  (0 <? length d) && forallb rendered d.

Definition query_mermaid_svg (d : dom) : option element :=
  if existsb c_has_svg d then Some SvgChild else None.
Definition query_mermaid (d : dom) : option element :=
  match d with
  | [] => None
  | _ :: _ => Some ContainerEl
  end.

Definition screenshot (pg : page) (el : option element) (out : path) : M unit :=
  match el with
  | None => raise AttributeError
  | Some e =>
      match pg_shot pg e with
      | Some png => write_text out png
      | None => raise ScreenshotError
      end
  end.

Definition pdf (pg : page) (out : path) : M unit :=
  match pg_pdf pg with
  | Some bytes => write_text out bytes
  | None => raise PdfError
  end.

(** ** [render_diagrams.py]: labels, file names, the standalone document *)

Definition DIAGRAM_LABELS : list string :=
  ["system_overview"; "data_ingestion"; "solve_pipeline"; "presolve_llm";
   "solver_engine"; "postsolve_llm"; "auto_runner"; "contract_lifecycle";
   "decision_ledger"; "whatif_analysis"; "end_to_end"]%string.

Fixpoint zeros (n : nat) : string :=
  match n with
  | 0 => ""%string
  | S n' => String "0"%char (zeros n')
  end.

(** The format specifier [02d]: decimal digits, filled with zeros on the
    left up to a width of two. *)
Definition format_02d (n : nat) : string :=
  let s := pretty n in
  (zeros (2 - String.length s) +:+ s)%string.

(** The label of the [i]-th block; the table is [DIAGRAM_LABELS] in the
    script. *)
Definition label_for (labels : list string) (i : nat) : string :=
  if bool_decide (i < length labels)
  then nth i labels ""%string
  else ("diagram_" +:+ pretty (i + 1))%string.

Definition out_name (labels : list string) (i : nat) : string :=
  (format_02d (i + 1) +:+ "_" +:+ label_for labels i +:+ ".png")%string.

Definition out_path (labels : list string) (i : nat) : path :=
  IMG_DIR ++ [out_name labels i].

Definition tmp_path (i : nat) : path :=
  SCRIPT_DIR ++ [("_tmp_diagram_" +:+ pretty i +:+ ".html")%string].

Definition nl : char := 10%N.

Fixpoint unlines (ls : list text) : text :=
  match ls with
  | [] => []
  | [l] => l
  | l :: ls' => l ++ nl :: unlines ls'
  end.

Definition single_head : text := Eval cbv in
  unlines [lit "<!DOCTYPE html>";
           lit "<html><head>";
           lit "<meta charset=" ++ [dq] ++ lit "UTF-8" ++ [dq] ++ lit ">";
           lit "<script>"].

Definition single_mid : text := Eval cbv in
  unlines [lit "</script>";
           lit "<style>";
           lit "  body { margin: 0; padding: 24px; background: white; }";
           lit "  .mermaid { display: flex; justify-content: center; }";
           lit "</style>";
           lit "</head><body>";
           lit "<div class=" ++ [dq] ++ lit "mermaid" ++ [dq] ++ lit ">";
           []].

Definition single_tail : text := Eval cbv in
  unlines [[];
           lit "</div>";
           lit "<script>";
           lit "mermaid.initialize({";
           lit "  startOnLoad: true,";
           lit "  theme: 'base',";
           lit "  themeVariables: {";
           lit "    primaryColor: '#ebf5fb',";
           lit "    primaryBorderColor: '#2e86de',";
           lit "    primaryTextColor: '#0b1d3a',";
           lit "    lineColor: '#5a6c7d',";
           lit "    secondaryColor: '#fef9e7',";
           lit "    tertiaryColor: '#eafaf1',";
           lit "    fontSize: '14px'";
           lit "  },";
           lit "  flowchart: { htmlLabels: true, curve: 'basis', padding: 16 }";
           lit "});";
           lit "</script>";
           lit "</body></html>"].

Definition build_single_diagram_html (mermaid_code mermaid_js : text) : text :=
  single_head ++ mermaid_js ++ single_mid ++ mermaid_code ++ single_tail.

(** ** [render_diagrams.py]: [main] *)

(** The element that is captured: the vector graphic if the page has one,
    else the container, else [None]. *)
Definition capture_target (d : dom) : option element :=
  match query_mermaid_svg d with
  | Some e => Some e
  | None => query_mermaid d
  end.

(** The progress line of job [i]. *)
Definition progress_line (labels : list string) (total i : nat) : string :=
  ("  [" +:+ pretty (i + 1) +:+ "/" +:+ pretty total +:+ "] "
   +:+ label_for labels i +:+ " -> " +:+ path_name (out_path labels i))%string.

(** The body of the [for] loop: one diagram render job. *)
Definition render_job (br : browser) (labels : list string)
    (mermaid_js : text) (total i : nat) (code : text) : M unit :=
  let diagram_html := build_single_diagram_html code mermaid_js in
  let tmp := tmp_path i in
  write_text tmp diagram_html;;
  pg ← goto br i tmp;
  wait_for_function diagram_ready pg;;
  let mermaid_el := capture_target (pg_settled pg) in
  screenshot pg mermaid_el (out_path labels i);;
  print (progress_line labels total i);;
  unlink tmp.

(** [for i, code in enumerate(blocks)], entered at index [i]. *)
Fixpoint render_loop (br : browser) (labels : list string)
    (mermaid_js : text) (total i : nat) (blocks : list text) : M unit :=
  match blocks with
  | [] => ret tt
  | code :: rest =>
      render_job br labels mermaid_js total i code;;
      render_loop br labels mermaid_js total (S i) rest
  end.

Definition render_diagrams_main (br : browser) : M unit :=
  mkdir_exist_ok IMG_DIR;;
  html ← read_text HTML_PATH;
  mermaid_js ← read_text MERMAID_JS;
  let blocks := extract_mermaid_blocks html in
  print ("Found " +:+ pretty (length blocks) +:+ " Mermaid diagrams")%string;;
  launch br;;
  render_loop br DIAGRAM_LABELS mermaid_js (length blocks) 0 blocks;;
  print (String "010"%char "All diagram images saved to "
         +:+ path_str IMG_DIR +:+ "/")%string.

(** ** [generate_pdf.py] *)

Definition CDN_OPEN : text := Eval cbv in lit "<script".
Definition CDN_SRC : text := Eval cbv in
  lit "src=" ++ [dq] ++ lit "https://cdn.jsdelivr.net/npm/mermaid@".
Definition CDN_CLOSE : text := Eval cbv in [dq] ++ lit "></script>".

(** The pattern of [build_offline_html]: the script tag whose source is the
    CDN address of the engine, with any version. *)
Definition CDN_SCRIPT_RE : list item :=
  [Lit CDN_OPEN; Plus is_space; Lit CDN_SRC; Star not_dq; Lit CDN_CLOSE].

Definition INLINE_OPEN : text := Eval cbv in lit "<script>".
Definition INLINE_CLOSE : text := Eval cbv in lit "</script>".

Definition inline_script (mermaid_code : text) : text :=
  INLINE_OPEN ++ mermaid_code ++ INLINE_CLOSE.

(** The text that [build_offline_html] writes, from the two texts it read. *)
Definition offline_html (html mermaid_code : text) : text :=
  match re_search CDN_SCRIPT_RE html with
  | Some (start, end_) =>
      take start html ++ inline_script mermaid_code ++ drop end_ html
  | None => html
  end.

Definition OFFLINE_TMP : path :=
  SCRIPT_DIR ++ ["_process_flows_offline.html"%string].

Definition build_offline_html : M path :=
  html ← read_text HTML_PATH;
  mermaid_code ← read_text MERMAID_JS;
  let html' := offline_html html mermaid_code in
  let tmp := OFFLINE_TMP in
  write_text tmp html';;
  ret tmp.

(** The body of the [try] block of [main]. *)
Definition export_body (br : browser) (tmp_html : path) : M unit :=
  launch br;;
  pg ← goto br 0 tmp_html;
  wait_for_function all_diagrams_ready pg;;
  print "All Mermaid diagrams rendered.";;
  pdf pg PDF_PATH;;
  print ("PDF saved to " +:+ path_str PDF_PATH)%string.

Definition generate_pdf_main (br : browser) : M unit :=
  tmp_html ← build_offline_html;
  print ("Loading offline HTML: " +:+ path_name tmp_html)%string;;
  try_finally (export_body br tmp_html) (unlink tmp_html).

(** * Vocabulary of the properties *)

(** ** White-space trimming, as the extraction pattern does it *)

Fixpoint take_while (p : char -> bool) (s : text) : text :=
  match s with
  | c :: s' => if p c then c :: take_while p s' else []
  | [] => []
  end.

Fixpoint drop_while (p : char -> bool) (s : text) : text :=
  match s with
  | c :: s' => if p c then drop_while p s' else s
  | [] => []
  end.

Definition lstrip (s : text) : text := drop_while is_space s.

(** Cut where the rest of the text is white space only. *)
Fixpoint rstrip (s : text) : text :=
  match s with
  | [] => []
  | c :: s' => if forallb is_space s then [] else c :: rstrip s'
  end.

Definition strip (s : text) : text := rstrip (lstrip s).

Definition all_space (s : text) : Prop := Forall (fun c => is_space c = true) s.

(** [s] has no position at which the pattern matches. *)
Definition no_match (its : list item) (s : text) : Prop :=
  re_search its s = None.

Definition head_not (p : char -> bool) (s : text) : Prop :=
  forall x, head s = Some x -> p x = false.

(** [u] is empty or starts a tag. *)
Definition follows_tag (u : text) : Prop :=
  forall x, head u = Some x -> x = lt_sign.

(** What a pattern that starts with a tag name, white space and an attribute
    consumes of [s]: the offset reached and the text left. *)
Definition tag_head_rest (name attr s : text) : option (nat * text) :=
  match strip_lit name s with
  | Some (c :: s1) =>
      if is_space c then
        match strip_lit attr (drop_while is_space s1) with
        | Some s2 =>
            Some (length name + S (length (take_while is_space s1))
                  + length attr, s2)
        | None => None
        end
      else None
  | _ => None
  end.

(** ** Documents with delimited diagram blocks *)

(** A block: the white space between the tag name and the class attribute,
    and the body up to the closing tag. *)
Record block := Block { b_space : text; b_body : text }.

Definition block_text (b : block) : text :=
  PRE_OPEN ++ b_space b ++ PRE_CLASS ++ b_body b ++ PRE_CLOSE.

(** The opening tag alone and the closing tag alone, as patterns. *)
Definition OPENING_TAG_RE : list item := take 3 MERMAID_BLOCK_RE.
Definition CLOSING_TAG_RE : list item := drop 8 MERMAID_BLOCK_RE.

Definition well_delimited (b : block) : Prop :=
  b_space b <> [] /\ all_space (b_space b) /\ no_match CLOSING_TAG_RE (b_body b).

(** Blocks, each followed by the text up to the next block. *)
Fixpoint blocks_text (bs : list (block * text)) : text :=
  match bs with
  | [] => []
  | (b, gap) :: bs' => block_text b ++ gap ++ blocks_text bs'
  end.

Definition well_formed (bs : list (block * text)) : Prop :=
  Forall (fun bg => well_delimited bg.1 /\ no_match OPENING_TAG_RE bg.2) bs.

Definition block_open_len (b : block) : nat :=
  length PRE_OPEN + length (b_space b) + length PRE_CLASS
  + length (take_while is_space (b_body b)).

(** ** References to the engine on the CDN *)

(** A script tag that the pattern of the bundler matches: white space [w]
    after the tag name, version [v] after the address. *)
Definition cdn_reference (w v : text) : text :=
  CDN_OPEN ++ w ++ CDN_SRC ++ v ++ CDN_CLOSE.

Definition quote_free (v : text) : Prop := Forall (fun c => not_dq c = true) v.

(** The start of such a tag, up to the address. *)
Definition CDN_HEAD_RE : list item := take 3 CDN_SCRIPT_RE.

(** ** Outcome of a render job, read off the page *)

Definition job_outcome (pg : page) : result text :=
  if pg_goto pg then
    if existsb diagram_ready (pg_polls pg) then
      match capture_target (pg_settled pg) with
      | Some el =>
          match pg_shot pg el with
          | Some png => Ok png
          | None => Raise ScreenshotError
          end
      | None => Raise AttributeError
      end
    else Raise WaitTimeout
  else Raise NavigationTimeout.

(** The page that job [i] gets for its standalone document. *)
Definition job_page (br : browser) (mermaid_js : text) (i : nat) (code : text) : page :=
  br_page br i (build_single_diagram_html code mermaid_js).

(** Two digits at least, with a leading zero below ten. *)
Definition two_digits (n : nat) : string :=
  if decide (n < 10) then ("0" +:+ pretty n)%string else pretty n.

Definition is_ok {A} (r : result A) : bool :=
  match r with
  | Ok _ => true
  | Raise _ => false
  end.

(** ** Outcome of the document export, read off the browser *)

Definition export_outcome (br : browser) (doc : text) : result text :=
  if br_launch br then
    let pg := br_page br 0 doc in
    if pg_goto pg then
      if existsb all_diagrams_ready (pg_polls pg) then
        match pg_pdf pg with
        | Some bytes => Ok bytes
        | None => Raise PdfError
        end
      else Raise WaitTimeout
    else Raise NavigationTimeout
  else Raise LaunchError.

Definition found_line (n : nat) : string :=
  ("Found " +:+ pretty n +:+ " Mermaid diagrams")%string.

(** ** Sample inputs *)

Definition sp : char := 32%N.

Definition two_references : text :=
  lit "<head>" ++ cdn_reference [sp] (lit "10") ++ lit "<!-- -->"
  ++ cdn_reference [sp] (lit "11") ++ lit "</head>".

Definition one_reference_pre : text := lit "<head><script src=x></script>".
Definition one_reference_post : text := lit "</head><body></body>".
Definition sample_engine : text := lit "var mermaid = 1 < 2;".

Definition sample_prefix : text := lit "<html><pre>code</pre>".
Definition sample_blocks : list (block * text) :=
  [(Block [sp] (lit "  graph TD; A-->B<br/>C "), lit "<p>x</p>");
   (Block [nl; sp] (lit "flow"), []);
   (Block [sp] [], lit "</html>")].

Definition sample_world (html : text) : world :=
  World (<[HTML_PATH := html]> (<[MERMAID_JS := sample_engine]> ∅)) [].

Definition two_diagrams : text :=
  sample_prefix
  ++ blocks_text [(Block [sp] (lit "graph TD; A-->B"), lit "<hr>");
                  (Block [sp] (lit "graph LR; C-->D"), lit "</html>")].

Definition page_never_ready : page :=
  Page true [[]; [Container None false]; [Container (Some "false"%string) false]]
       [Container None false] (fun _ => Some (lit "PNG")) None.

Definition page_rendered : page :=
  Page true [[]; [Container (Some "true"%string) false]]
       [Container (Some "true"%string) true]
       (fun _ => Some (lit "PNG")) (Some (lit "%PDF")).

Definition page_without_diagrams : page :=
  Page true [[]; []; []] [] (fun _ => Some (lit "PNG")) (Some (lit "%PDF")).

(** A session whose [n]-th page never finishes rendering. *)
Definition browser_hanging_at (n : nat) : browser :=
  Browser true (fun i _ => if decide (i = n) then page_never_ready
                           else page_rendered).

Definition browser_without_diagrams : browser :=
  Browser true (fun _ _ => page_without_diagrams).

(** ** Decimal digits in file names *)

Definition is_digit (c : ascii) : bool :=
  (48 <=? nat_of_ascii c) && (nat_of_ascii c <=? 57).

Fixpoint all_digits (s : string) : bool :=
  match s with
  | EmptyString => true
  | String c s' => is_digit c && all_digits s'
  end.

(** ** A batch of render jobs, read off the pages

    The jobs of the blocks [blocks], the first one at position [k], run in
    order up to the first one that fails: what they leave in the store,
    how many complete, and how the loop ends. *)

Fixpoint batch_store (br : browser) (labels : list string) (js : text)
    (k : nat) (blocks : list text) (fs : gmap path text) : gmap path text :=
  match blocks with
  | [] => fs
  | code :: rest =>
      let fs1 := <[tmp_path k := build_single_diagram_html code js]> fs in
      match job_outcome (job_page br js k code) with
      | Ok png =>
          batch_store br labels js (S k) rest
            (delete (tmp_path k) (<[out_path labels k := png]> fs1))
      | Raise _ => fs1
      end
  end.

Fixpoint jobs_done (br : browser) (js : text) (k : nat) (blocks : list text) : nat :=
  match blocks with
  | [] => 0
  | code :: rest =>
      if is_ok (job_outcome (job_page br js k code))
      then S (jobs_done br js (S k) rest)
      else 0
  end.

Fixpoint batch_result (br : browser) (js : text) (k : nat) (blocks : list text)
    : result unit :=
  match blocks with
  | [] => Ok tt
  | code :: rest =>
      match job_outcome (job_page br js k code) with
      | Ok _ => batch_result br js (S k) rest
      | Raise e => Raise e
      end
  end.

Definition all_jobs_ok (br : browser) (js : text) (blocks : list text) : Prop :=
  forall i code, blocks !! i = Some code ->
                 is_ok (job_outcome (job_page br js i code)) = true.

(** The last line [main] prints. *)
Definition summary_line : string :=
  (String "010"%char "All diagram images saved to "
   +:+ path_str IMG_DIR +:+ "/")%string.

(** ** [build_pptx.py]: the images the slide deck reads

    The file names that [build_presentation] passes to [add_diagram_image],
    below [IMG_DIR], in the order of the slides. *)
Definition SLIDE_DIAGRAM_IMAGES : list string :=
  ["01_system_overview.png"; "02_data_ingestion.png"; "03_solve_pipeline.png";
   "04_presolve_llm.png"; "05_solver_engine.png"; "06_postsolve_llm.png";
   "07_auto_runner.png"; "08_contract_lifecycle.png"; "09_decision_ledger.png";
   "10_whatif_analysis.png"; "11_end_to_end.png"]%string.

(** A session in which every page renders. *)
Definition browser_rendering : browser :=
  Browser true (fun _ _ => page_rendered).

Definition browser_not_launching : browser :=
  Browser false (fun _ _ => page_rendered).

Definition eleven_diagrams : text :=
  blocks_text (replicate 11 (Block [sp] (lit "graph TD; A-->B"), [nl])).

(** The console of the document export, from how the export ends. *)
Definition export_console (r : result text) : list string :=
  ["Loading offline HTML: _process_flows_offline.html"%string]
  ++ match r with
     | Ok _ => ["All Mermaid diagrams rendered.";
                "PDF saved to " +:+ path_str PDF_PATH]%string
     | Raise PdfError => ["All Mermaid diagrams rendered."%string]
     | Raise _ => []
     end.



(** * Properties *)

(** ** Literals and runs of a character class *)

Lemma strip_lit_app l s : strip_lit l (l ++ s) = Some s.
Proof.
  induction l as [|a l IH]; simpl; [done|]. by rewrite N.eqb_refl.
Qed.

Lemma strip_lit_Some l s r : strip_lit l s = Some r -> s = l ++ r.
Proof.
  revert s; induction l as [|a l IH]; intros [|b s]; simpl; try congruence.
  destruct (N.eqb_spec a b) as [->|]; [|done].
  intros H; apply IH in H. by rewrite H.
Qed.

Lemma strip_lit_cons a l b s :
  strip_lit (a :: l) (b :: s) = if (a =? b)%N then strip_lit l s else None.
Proof. reflexivity. Qed.

(** A literal found in [t ++ u] lies within [t] when the first character of
    [u] does not occur in the literal. *)
Lemma strip_lit_within l t u r :
  strip_lit l (t ++ u) = Some r ->
  (forall x, head u = Some x -> x ∉ l) ->
  exists t', strip_lit l t = Some t' /\ r = t' ++ u.
Proof.
  revert t; induction l as [|a l IH]; intros t H Hu; simpl in *.
  - exists t. split; congruence.
  - destruct t as [|b t]; simpl in *.
    + destruct u as [|b u]; [done|].
      destruct (N.eqb_spec a b) as [->|]; [|done].
      exfalso. apply (Hu b); [done|]. left.
    + destruct (a =? b)%N; [|done].
      apply IH; [done|]. intros x Hx Hin. apply (Hu x Hx). by right.
Qed.

Lemma take_drop_while p s : take_while p s ++ drop_while p s = s.
Proof.
  induction s as [|c s IH]; simpl; [done|].
  destruct (p c); simpl; congruence.
Qed.

Lemma take_while_Forall p s : Forall (fun c => p c = true) (take_while p s).
Proof.
  induction s as [|c s IH]; simpl; [constructor|].
  destruct (p c) eqn:E; constructor; done.
Qed.

Lemma drop_while_head p s : head_not p (drop_while p s).
Proof.
  induction s as [|c s IH]; simpl; [by intros x|].
  destruct (p c) eqn:E; [done|]. intros x [= <-]. done.
Qed.

Lemma drop_while_app p s u :
  head_not p u -> drop_while p (s ++ u) = drop_while p s ++ u.
Proof.
  intros Hu. induction s as [|c s IH]; simpl.
  - destruct u as [|x u]; simpl; [done|]. by rewrite (Hu x).
  - destruct (p c); done.
Qed.

Lemma take_while_app p s u :
  head_not p u -> take_while p (s ++ u) = take_while p s.
Proof.
  intros Hu. induction s as [|c s IH]; simpl.
  - destruct u as [|x u]; simpl; [done|]. by rewrite (Hu x).
  - destruct (p c); by rewrite ?IH.
Qed.

Lemma take_while_all p w :
  Forall (fun c => p c = true) w -> take_while p w = w.
Proof. induction 1 as [|c w Hc _ IH]; simpl; [done|]. by rewrite Hc, IH. Qed.

Lemma drop_while_all p w :
  Forall (fun c => p c = true) w -> drop_while p w = [].
Proof. induction 1 as [|c w Hc _ IH]; simpl; [done|]. by rewrite Hc. Qed.

Lemma head_not_app p s u :
  head_not p s -> (s = [] -> head_not p u) -> head_not p (s ++ u).
Proof.
  intros Hs Hu. destruct s as [|c s]; simpl; [by apply Hu|].
  intros x [= <-]. by apply Hs.
Qed.

Lemma follows_tag_head_not u : follows_tag u -> head_not is_space u.
Proof. intros H x Hx. by rewrite (H x Hx). Qed.

Lemma all_space_forallb s : forallb is_space s = true <-> all_space s.
Proof.
  unfold all_space. induction s as [|c s IH]; simpl.
  - split; [constructor|done].
  - rewrite andb_true_iff, IH. split.
    + intros [??]. by constructor.
    + by inversion 1.
Qed.

Lemma rstrip_take x v : take (length (rstrip x)) (x ++ v) = rstrip x.
Proof.
  induction x as [|c x IH]; [done|].
  cbn [rstrip]. destruct (forallb is_space (c :: x)); [done|].
  simpl. by rewrite IH.
Qed.

(** [rstrip] removes the white space at the end: it is [lstrip] seen from
    the other end. *)
Lemma drop_while_snoc p l c :
  drop_while p (l ++ [c]) =
    if forallb p l then (if p c then [] else [c]) else drop_while p l ++ [c].
Proof.
  induction l as [|a l IH]; simpl; [done|]. destruct (p a); simpl; done.
Qed.

Lemma forallb_reverse p (l : text) : forallb p (reverse l) = forallb p l.
Proof.
  induction l as [|a l IH]; [done|].
  rewrite reverse_cons, forallb_app, IH. simpl. by rewrite andb_true_r, andb_comm.
Qed.

Lemma rstrip_reverse s : rstrip s = reverse (lstrip (reverse s)).
Proof.
  unfold lstrip. induction s as [|c s IH]; [done|].
  cbn [rstrip forallb]. rewrite reverse_cons, drop_while_snoc, forallb_reverse.
  destruct (forallb is_space s) eqn:Hs.
  - destruct (is_space c); [done|]. cbn [andb]. rewrite IH. f_equal.
    rewrite drop_while_all; [done|].
    apply all_space_forallb. by rewrite forallb_reverse.
  - rewrite andb_false_r, reverse_app, IH. done.
Qed.

Section RepeatFacts.
Context {R : Type} (p : char -> bool) (k : nat -> text -> option R).

Lemma lazy_unfold n s :
  lazy p k n s =
    match k n s with
    | Some r => Some r
    | None =>
        match s with
        | c :: s' => if p c then lazy p k (S n) s' else None
        | [] => None
        end
    end.
Proof. by destruct s. Qed.

(** The longest run is tried first. *)
Lemma greedy_longest w s n r :
  Forall (fun c => p c = true) w -> head_not p s ->
  k (n + length w) s = Some r ->
  greedy p k n (w ++ s) = Some r.
Proof.
  intros Hw Hs. revert n.
  induction Hw as [|c w Hc _ IH]; intros n Hk; simpl in *.
  - rewrite Nat.add_0_r in Hk. destruct s as [|x s]; simpl; [done|].
    by rewrite (Hs x).
  - rewrite Hc. rewrite (IH (S n)); [done|].
    by replace (S n + length w) with (n + S (length w)) by lia.
Qed.

(** When what follows cannot start with a character of the class, only
    the longest run can succeed. *)
Lemma greedy_only_longest w s n :
  (forall m c t, p c = true -> k m (c :: t) = None) ->
  Forall (fun c => p c = true) w -> head_not p s ->
  greedy p k n (w ++ s) = k (n + length w) s.
Proof.
  intros Hk Hw Hs. revert n. induction Hw as [|c w Hc _ IH]; intros n; simpl.
  - rewrite Nat.add_0_r. destruct s as [|x s]; simpl; [done|].
    by rewrite (Hs x).
  - rewrite Hc, (IH (S n)).
    replace (S n + length w) with (n + S (length w)) by lia.
    destruct (k (n + S (length w)) s); [done|].
    by apply Hk.
Qed.
End RepeatFacts.

(** ** One step of the matcher *)

Lemma run_Lit l r st s :
  run (Lit l :: r) st s =
    match strip_lit l s with
    | Some s' => run r (advance st (length l)) s'
    | None => None
    end.
Proof. reflexivity. Qed.

Lemma run_Plus p r st c s :
  run (Plus p :: r) st (c :: s) =
    if p c then greedy p (fun n t => run r (advance st (S n)) t) 0 s else None.
Proof. reflexivity. Qed.

Lemma run_Star p r st s :
  run (Star p :: r) st s = greedy p (fun n t => run r (advance st n) t) 0 s.
Proof. reflexivity. Qed.

Lemma run_LazyStar p r st s :
  run (LazyStar p :: r) st s = lazy p (fun n t => run r (advance st n) t) 0 s.
Proof. reflexivity. Qed.

Lemma run_GOpen r st s : run (GOpen :: r) st s = run r (mark_open st) s.
Proof. reflexivity. Qed.

(** ** Scanning *)

Lemma search_from_None its i s t :
  search_from its i s = None -> t `suffix_of` s -> match_here its t = None.
Proof.
  revert i. induction s as [|c s IH]; intros i H Ht; simpl in H.
  - apply suffix_nil_inv in Ht as ->. by destruct (match_here its []).
  - destruct (match_here its (c :: s)) eqn:E; [done|].
    destruct Ht as [[|x pre] Hpre]; simpl in Hpre; [by subst|].
    injection Hpre as _ ->. eapply IH; [done|]. by exists pre.
Qed.

Lemma no_match_suffix its s t :
  no_match its s -> t `suffix_of` s -> match_here its t = None.
Proof. apply search_from_None. Qed.

Lemma search_from_None_shift its i j s :
  search_from its i s = None -> search_from its j s = None.
Proof.
  revert i j. induction s as [|c s IH]; intros i j; simpl.
  - by destruct (match_here its []).
  - destruct (match_here its (c :: s)); [done|]. apply IH.
Qed.

Lemma no_match_app its a s : no_match its (a ++ s) -> no_match its s.
Proof.
  unfold no_match, re_search.
  induction a as [|c a IH]; simpl; [done|].
  destruct (match_here its (c :: a ++ s)); [done|].
  intros H. apply IH. by apply (search_from_None_shift _ 1).
Qed.

(** Positions of [a] at which nothing matches are passed over. *)
Lemma search_from_app its a u i :
  (forall t, t <> [] -> t `suffix_of` a -> match_here its (t ++ u) = None) ->
  search_from its i (a ++ u) = search_from its (i + length a) u.
Proof.
  revert i. induction a as [|c a IH]; intros i Ha.
  - simpl. by rewrite Nat.add_0_r.
  - rewrite <- app_comm_cons. cbn [search_from]. rewrite app_comm_cons.
    rewrite Ha; [|done|done]. rewrite IH.
    + f_equal. simpl. lia.
    + intros t Ht Hs. apply Ha; [done|]. by apply suffix_cons_r.
Qed.

Lemma findall_skip its a s :
  findall_from its (a ++ s) (length a) = findall_from its s 0.
Proof. induction a as [|c a IH]; [done|]. simpl. apply IH. Qed.

Lemma findall_from_app its a u :
  (forall t, t <> [] -> t `suffix_of` a -> match_here its (t ++ u) = None) ->
  findall_from its (a ++ u) 0 = findall_from its u 0.
Proof.
  induction a as [|c a IH]; intros Ha; [done|].
  rewrite <- app_comm_cons. cbn [findall_from]. rewrite app_comm_cons.
  rewrite Ha; [|done|done].
  apply IH. intros t Ht Hs. apply Ha; [done|]. by apply suffix_cons_r.
Qed.

(** ** Patterns that start with a tag name, white space and an attribute

    Both patterns of the scripts start this way.  The tag name starts with
    the only [<] of the three items and the attribute does not start with
    white space, so the three items match in one way only, and a match that
    starts before the start of another tag ends before it. *)

Section TagHead.
Variables (name_tl : text) (a0 : char) (attr_tl : text).
Hypothesis name_no_lt : lt_sign ∉ name_tl.
Hypothesis attr_start : is_space a0 = false.
Hypothesis attr_no_lt : lt_sign ∉ a0 :: attr_tl.

Local Abbreviation name := (lt_sign :: name_tl).
Local Abbreviation attr := (a0 :: attr_tl).

Lemma tag_head_run r st s :
  run (Lit name :: Plus is_space :: Lit attr :: r) st s =
    match tag_head_rest name attr s with
    | Some (n, s2) => run r (advance st n) s2
    | None => None
    end.
Proof.
  unfold tag_head_rest. rewrite run_Lit.
  destruct (strip_lit name s) as [[|c s1]|]; [done| |done].
  rewrite run_Plus. destruct (is_space c); [|done].
  rewrite <- (take_drop_while is_space s1) at 1.
  rewrite greedy_only_longest;
    [| |apply take_while_Forall|apply drop_while_head].
  - cbn beta. rewrite run_Lit.
    destruct (strip_lit attr (drop_while is_space s1)); [|done].
    f_equal. unfold advance; cbn [m_end m_gopen m_gclose]. f_equal. lia.
  - intros m x t Hx. rewrite run_Lit, strip_lit_cons.
    destruct (N.eqb_spec a0 x) as [<-|]; [congruence|done].
Qed.

Lemma tag_head_within t u n s2 :
  t <> [] -> follows_tag u ->
  tag_head_rest name attr (t ++ u) = Some (n, s2) ->
  exists t2, tag_head_rest name attr t = Some (n, t2).
Proof.
  intros Ht Hu. unfold tag_head_rest.
  destruct t as [|y t]; [done|].
  rewrite <- app_comm_cons, !strip_lit_cons.
  destruct (lt_sign =? y)%N; [|done].
  destruct (strip_lit name_tl (t ++ u)) as [s1|] eqn:E1; [|done].
  apply strip_lit_within in E1 as (t1 & -> & ->).
  2:{ intros x Hx. by rewrite (Hu x Hx). }
  destruct t1 as [|c t1]; cbn [app].
  { destruct u as [|x u]; [done|]. by rewrite (Hu x eq_refl). }
  destruct (is_space c); [|done].
  rewrite drop_while_app by by apply follows_tag_head_not.
  destruct (strip_lit attr (drop_while is_space t1 ++ u)) as [s3|] eqn:E3;
    [|done].
  apply strip_lit_within in E3 as (t3 & -> & ->).
  2:{ intros x Hx. by rewrite (Hu x Hx). }
  intros [= <- _]. rewrite take_while_app by by apply follows_tag_head_not.
  by eexists.
Qed.

(** Where the three items do not occur in [g], no pattern that starts
    with them matches at a position of [g], whatever tag follows [g]. *)
Lemma tag_head_absent r g t u :
  no_match [Lit name; Plus is_space; Lit attr] g ->
  t <> [] -> t `suffix_of` g -> follows_tag u ->
  match_here (Lit name :: Plus is_space :: Lit attr :: r) (t ++ u) = None.
Proof.
  intros Hg Ht Hsuf Hu.
  pose proof (no_match_suffix _ _ _ Hg Hsuf) as Hn.
  unfold match_here in *. rewrite tag_head_run in Hn |- *.
  destruct (tag_head_rest name attr (t ++ u)) as [[n s2]|] eqn:E; [|done].
  apply tag_head_within in E as (t2 & E); [|done..].
  by rewrite E in Hn.
Qed.
End TagHead.

(** ** Extraction of the diagram blocks *)

Lemma no_closer_strip x t :
  no_match CLOSING_TAG_RE x -> t `suffix_of` x -> strip_lit PRE_CLOSE t = None.
Proof.
  intros H Ht. pose proof (no_match_suffix _ _ _ H Ht) as E.
  unfold match_here, CLOSING_TAG_RE in E. cbn [drop MERMAID_BLOCK_RE run] in E.
  by destruct (strip_lit PRE_CLOSE t).
Qed.

Lemma pre_close_head_not u : head_not is_space (PRE_CLOSE ++ u).
Proof. intros x [= <-]. reflexivity. Qed.

(** A closing tag that starts inside a body which has none cannot be
    completed by the closing tag that follows the body. *)
Lemma no_closer_straddle x d u :
  no_match CLOSING_TAG_RE x -> d <> [] -> d `suffix_of` x ->
  strip_lit PRE_CLOSE (d ++ PRE_CLOSE ++ u) = None.
Proof.
  intros H Hd Hsuf.
  destruct (strip_lit PRE_CLOSE (d ++ PRE_CLOSE ++ u)) as [r|] eqn:E; [|done].
  exfalso. destruct d as [|y d]; [done|].
  pose proof (no_closer_strip _ _ H Hsuf) as Hn.
  remember (drop 1 PRE_CLOSE) as l eqn:El.
  change PRE_CLOSE with (lt_sign :: drop 1 PRE_CLOSE) in E at 1.
  change PRE_CLOSE with (lt_sign :: drop 1 PRE_CLOSE) in Hn.
  rewrite <- El in E, Hn. rewrite <- app_comm_cons, strip_lit_cons in E.
  rewrite strip_lit_cons in Hn.
  destruct (lt_sign =? y)%N; [|done].
  apply strip_lit_within in E as (t' & E & _); [congruence|].
  intros z [= <-]. subst l. apply (bool_decide_unpack _). by vm_compute.
Qed.

(** The end of the block pattern, from the end of group 1 on. *)
Lemma closing_run st w u :
  all_space w -> head_not is_space u ->
  run [GClose; Star is_space; Lit PRE_CLOSE] st (w ++ u) =
    match strip_lit PRE_CLOSE u with
    | Some _ => Some (MState (m_end st + length w + length PRE_CLOSE)
                             (m_gopen st) (m_end st))
    | None => None
    end.
Proof.
  intros Hw Hu. cbn [run].
  rewrite greedy_only_longest; [| |done|done].
  - simpl. destruct (strip_lit PRE_CLOSE u); [|done].
    unfold advance, mark_close; simpl. f_equal.
  - intros m c t Hc.
    change PRE_CLOSE with (lt_sign :: drop 1 PRE_CLOSE). rewrite strip_lit_cons.
    destruct (N.eqb_spec lt_sign c) as [<-|]; [done|done].
Qed.

(** The lazy body stops where only white space is left before the closing
    tag: that is [rstrip]. *)
Lemma lazy_body st x u n :
  no_match CLOSING_TAG_RE x ->
  lazy any_char
    (fun m t => run [GClose; Star is_space; Lit PRE_CLOSE]
                    (advance (mark_open st) m) t)
    n (x ++ PRE_CLOSE ++ u)
  = Some (MState (m_end st + n + length x + length PRE_CLOSE) (m_end st)
                 (m_end st + n + length (rstrip x))).
Proof.
  intros H. assert (Hs : forall t, t `suffix_of` x -> t `suffix_of` x) by done.
  revert Hs n. generalize x at 1 3 4 5 as y.
  induction y as [|c y IH]; intros Hs n.
  - rewrite lazy_unfold, (closing_run _ [] (PRE_CLOSE ++ u));
      [|constructor|apply pre_close_head_not].
    rewrite strip_lit_app. simpl. do 2 f_equal; lia.
  - rewrite lazy_unfold. destruct (forallb is_space (c :: y)) eqn:Hall.
    + apply all_space_forallb in Hall.
      rewrite (closing_run _ (c :: y) (PRE_CLOSE ++ u));
        [|done|apply pre_close_head_not].
      rewrite strip_lit_app. cbn [rstrip]. apply all_space_forallb in Hall.
      rewrite Hall. simpl. do 2 f_equal; lia.
    + assert (drop_while is_space (c :: y) <> []) as Hd.
      { intros E. pose proof (take_drop_while is_space (c :: y)) as T.
        rewrite E, app_nil_r in T.
        pose proof (take_while_Forall is_space (c :: y)) as F. rewrite T in F.
        apply all_space_forallb in F. congruence. }
      rewrite <- (take_drop_while is_space (c :: y)) at 1.
      rewrite <- app_assoc, closing_run;
        [|apply take_while_Forall
         |apply head_not_app; [apply drop_while_head|done]].
      rewrite (no_closer_straddle x); [|done|done|].
      2:{ etrans; [|apply (Hs (c :: y)); done].
          exists (take_while is_space (c :: y)). by rewrite take_drop_while. }
      cbn [app any_char]. rewrite IH.
      * cbn [rstrip]. rewrite Hall. simpl. do 2 f_equal; lia.
      * intros t Ht. apply Hs. by apply suffix_cons_r.
Qed.

(** The pattern matches a well-delimited block from its first character to
    the end of its closing tag. *)
Lemma block_match b u :
  well_delimited b ->
  match_here MERMAID_BLOCK_RE (block_text b ++ u) =
    Some (MState (length (block_text b)) (block_open_len b)
                 (block_open_len b + length (strip (b_body b)))).
Proof.
  destruct b as [w body]. unfold well_delimited, block_text, block_open_len.
  cbn [b_space b_body]. intros (Hne & Hw & Hbody).
  destruct w as [|c w]; [done|]. inversion Hw as [|? ? Hc Hw']; subst.
  unfold match_here, MERMAID_BLOCK_RE.
  rewrite run_Lit, <- !app_assoc, strip_lit_app.
  rewrite <- app_comm_cons, run_Plus, Hc.
  rewrite <- (take_drop_while is_space body) at 1.
  erewrite greedy_longest; [reflexivity|exact Hw'|by intros x [= <-]|].
  cbn beta. rewrite run_Lit, strip_lit_app, <- !app_assoc, run_Star.
  erewrite greedy_longest;
    [reflexivity|apply take_while_Forall
    |apply head_not_app;
       [apply drop_while_head|intros _; apply pre_close_head_not]|].
  cbn beta. rewrite run_GOpen, run_LazyStar, lazy_body.
  - unfold strip, lstrip, advance, m_init. cbn [m_end]. f_equal.
    pose proof (f_equal length (take_drop_while is_space body)) as L.
    rewrite length_app in L. rewrite !length_app. simpl length in *.
    f_equal; lia.
  - apply (no_match_app _ (take_while is_space body)).
    by rewrite take_drop_while.
Qed.

(** Group 1 of that match is the trimmed body. *)
Lemma block_group b u :
  group1 (MState (length (block_text b)) (block_open_len b)
                 (block_open_len b + length (strip (b_body b))))
         (block_text b ++ u)
  = strip (b_body b).
Proof.
  unfold group1, block_text, block_open_len. cbn [m_gopen m_gclose].
  rewrite <- (take_drop_while is_space (b_body b)) at 5.
  rewrite <- !app_assoc.
  rewrite !(app_assoc _ _ (drop_while _ _ ++ _)).
  rewrite drop_app_length'; [|rewrite !length_app; lia].
  replace (_ + _ - _) with (length (strip (b_body b))) by lia.
  apply rstrip_take.
Qed.

(** No match of the block pattern starts in text without opening tag. *)
Lemma gap_no_block_match g t u :
  no_match OPENING_TAG_RE g -> t <> [] -> t `suffix_of` g -> follows_tag u ->
  match_here MERMAID_BLOCK_RE (t ++ u) = None.
Proof.
  intros Hg Ht Hsuf Hu.
  apply (tag_head_absent (drop 1 PRE_OPEN) 99%N (drop 1 PRE_CLASS)
           ltac:(apply (bool_decide_unpack _); by vm_compute)
           eq_refl
           ltac:(apply (bool_decide_unpack _); by vm_compute)
           (drop 3 MERMAID_BLOCK_RE) g); done.
Qed.

Lemma findall_gap g u :
  no_match OPENING_TAG_RE g -> follows_tag u ->
  findall_from MERMAID_BLOCK_RE (g ++ u) 0 = findall_from MERMAID_BLOCK_RE u 0.
Proof.
  intros Hg Hu. apply findall_from_app.
  intros t Ht Hs. by apply (gap_no_block_match g).
Qed.

Lemma findall_block b u :
  well_delimited b ->
  findall_from MERMAID_BLOCK_RE (block_text b ++ u) 0 =
    strip (b_body b) :: findall_from MERMAID_BLOCK_RE u 0.
Proof.
  intros Hb. pose proof (block_match b u Hb) as Hm.
  pose proof (block_group b u) as Hg.
  destruct (block_text b) as [|c bt] eqn:Eb.
  { unfold block_text in Eb. discriminate. }
  rewrite <- app_comm_cons in *. cbn [findall_from]. rewrite Hm, Hg.
  cbn [m_end length]. rewrite Nat.sub_succ, Nat.sub_0_r.
  by rewrite findall_skip.
Qed.

Lemma blocks_text_follows bs : follows_tag (blocks_text bs).
Proof. destruct bs as [|[b g] bs]; [by intros x|]. by intros x [= <-]. Qed.

Lemma findall_blocks bs :
  well_formed bs ->
  findall_from MERMAID_BLOCK_RE (blocks_text bs) 0 =
    map (fun bg => strip (b_body bg.1)) bs.
Proof.
  induction 1 as [|[b g] bs [Hb Hg] _ IH]; [done|].
  cbn [blocks_text map fst snd] in *.
  rewrite findall_block by done.
  rewrite findall_gap; [by rewrite IH|done|apply blocks_text_follows].
Qed.

(** C3. A document made of text without opening tag, then N well-delimited
    diagram blocks, each followed by text without opening tag: extraction
    returns the N trimmed bodies in the order of the document, whatever the
    bodies are as long as they hold no closing tag; with no block the
    result is empty. *)
Theorem extract_blocks_in_order (g0 : text) (bs : list (block * text)) :
  no_match OPENING_TAG_RE g0 ->
  well_formed bs ->
  extract_mermaid_blocks (g0 ++ blocks_text bs)
    = map (fun bg => strip (b_body bg.1)) bs
  /\ length (extract_mermaid_blocks (g0 ++ blocks_text bs)) = length bs
  /\ extract_mermaid_blocks g0 = [].
Proof.
  intros Hg Hbs. unfold extract_mermaid_blocks, re_findall.
  assert (findall_from MERMAID_BLOCK_RE (g0 ++ blocks_text bs) 0 =
          map (fun bg => strip (b_body bg.1)) bs) as E.
  { rewrite findall_gap; [by apply findall_blocks|done|].
    apply blocks_text_follows. }
  split; [done|]. split; [by rewrite E, length_map|].
  rewrite <- (app_nil_r g0). by rewrite findall_gap.
Qed.

(** ** The pattern of the bundler *)

Lemma cdn_head_absent r g t u :
  no_match CDN_HEAD_RE g -> t <> [] -> t `suffix_of` g -> follows_tag u ->
  match_here (Lit CDN_OPEN :: Plus is_space :: Lit CDN_SRC :: r) (t ++ u) = None.
Proof.
  intros Hg Ht Hsuf Hu.
  apply (tag_head_absent (drop 1 CDN_OPEN) 115%N (drop 1 CDN_SRC)
           ltac:(apply (bool_decide_unpack _); by vm_compute)
           eq_refl
           ltac:(apply (bool_decide_unpack _); by vm_compute)
           r g); done.
Qed.

(** The pattern matches in one way only. *)
Lemma cdn_match s :
  match_here CDN_SCRIPT_RE s =
    match tag_head_rest CDN_OPEN CDN_SRC s with
    | Some (n, s2) =>
        match strip_lit CDN_CLOSE (drop_while not_dq s2) with
        | Some _ =>
            Some (MState (n + length (take_while not_dq s2) + length CDN_CLOSE)
                         0 0)
        | None => None
        end
    | None => None
    end.
Proof.
  unfold match_here, CDN_SCRIPT_RE.
  etrans.
  { exact (tag_head_run (drop 1 CDN_OPEN) 115%N (drop 1 CDN_SRC) eq_refl
             [Star not_dq; Lit CDN_CLOSE] m_init s). }
  change (lt_sign :: drop 1 CDN_OPEN) with CDN_OPEN.
  change (115%N :: drop 1 CDN_SRC) with CDN_SRC.
  destruct (tag_head_rest CDN_OPEN CDN_SRC s) as [[n s2]|]; [|done].
  rewrite run_Star. rewrite <- (take_drop_while not_dq s2) at 1.
  rewrite greedy_only_longest;
    [| |apply take_while_Forall|apply drop_while_head].
  - cbn beta. rewrite run_Lit.
    destruct (strip_lit CDN_CLOSE (drop_while not_dq s2)); [|done].
    reflexivity.
  - intros m c t Hc. rewrite run_Lit.
    change CDN_CLOSE with (dq :: drop 1 CDN_CLOSE). rewrite strip_lit_cons.
    destruct (N.eqb_spec dq c) as [<-|]; done.
Qed.

(** It matches every reference, from its first character to its last. *)
Lemma cdn_match_reference w v u :
  w <> [] -> all_space w -> quote_free v ->
  match_here CDN_SCRIPT_RE (cdn_reference w v ++ u) =
    Some (MState (length (cdn_reference w v)) 0 0).
Proof.
  intros Hne Hw Hv. rewrite cdn_match. unfold cdn_reference, tag_head_rest.
  rewrite <- !app_assoc, strip_lit_app.
  destruct w as [|c w]; [done|]. inversion Hw as [|? ? Hc Hw']; subst.
  rewrite <- app_comm_cons, Hc.
  assert (head_not is_space (CDN_SRC ++ v ++ CDN_CLOSE ++ u)) as Hh
    by by intros x [= <-].
  rewrite drop_while_app, take_while_app by done.
  rewrite drop_while_all, take_while_all by done.
  rewrite app_nil_l, strip_lit_app.
  assert (head_not not_dq (CDN_CLOSE ++ u)) as Hq by by intros x [= <-].
  rewrite drop_while_app, take_while_app by done.
  rewrite drop_while_all, take_while_all by done.
  rewrite app_nil_l, strip_lit_app. f_equal.
  rewrite !length_app. simpl length. f_equal. lia.
Qed.

(** What it matches is a reference. *)
Lemma cdn_match_is_reference s st :
  match_here CDN_SCRIPT_RE s = Some st ->
  exists w v u,
    s = cdn_reference w v ++ u /\ w <> [] /\ all_space w /\ quote_free v
    /\ m_end st = length (cdn_reference w v).
Proof.
  intros H.
  assert (exists w v u, s = cdn_reference w v ++ u /\ w <> [] /\ all_space w
                        /\ quote_free v) as (w & v & u & -> & Hne & Hw & Hv).
  { rewrite cdn_match in H. unfold tag_head_rest in H.
    destruct (strip_lit CDN_OPEN s) as [[|c s1]|] eqn:E1; try done.
    destruct (is_space c) eqn:Hc; [|done].
    destruct (strip_lit CDN_SRC (drop_while is_space s1)) as [s2|] eqn:E2;
      [|done].
    destruct (strip_lit CDN_CLOSE (drop_while not_dq s2)) as [u|] eqn:E3;
      [|done].
    apply strip_lit_Some in E1, E2, E3.
    exists (c :: take_while is_space s1), (take_while not_dq s2), u.
    split; [|split; [done|split]].
    - unfold cdn_reference. rewrite <- !app_assoc, <- E3, take_drop_while.
      rewrite <- app_comm_cons, <- E2, take_drop_while. done.
    - constructor; [done|apply take_while_Forall].
    - apply take_while_Forall. }
  rewrite cdn_match_reference in H by done.
  injection H as <-. by exists w, v, u.
Qed.

(** ** What a search returns *)

Lemma search_from_Some its i s a b :
  search_from its i s = Some (a, b) ->
  i <= a /\ a - i <= length s
  /\ (forall j, j < a - i -> match_here its (drop j s) = None)
  /\ (exists st, match_here its (drop (a - i) s) = Some st /\ b = a + m_end st).
Proof.
  revert i. induction s as [|c s IH]; intros i; cbn [search_from].
  - destruct (match_here its []) as [st|] eqn:E; [|done].
    intros [= <- <-]. rewrite Nat.sub_diag.
    split; [lia|]. split; [simpl; lia|]. split; [intros j Hj; lia|].
    by exists st.
  - destruct (match_here its (c :: s)) as [st|] eqn:E.
    + intros [= <- <-]. rewrite Nat.sub_diag.
      split; [lia|]. split; [simpl; lia|]. split; [intros j Hj; lia|].
      by exists st.
    + intros H. apply IH in H as (Hi & Hlen & Hbefore & st & Hst & ->).
      replace (a - i) with (S (a - S i)) by lia.
      split; [lia|]. split; [simpl; lia|]. split; [|by exists st].
      intros [|j] Hj; [done|]. apply Hbefore. lia.
Qed.

(** ** The text that the bundler writes *)

Lemma offline_html_found html js a b :
  re_search CDN_SCRIPT_RE html = Some (a, b) ->
  offline_html html js = take a html ++ inline_script js ++ drop b html.
Proof. unfold offline_html. by intros ->. Qed.

Lemma offline_html_not_found html js :
  no_match CDN_SCRIPT_RE html -> offline_html html js = html.
Proof. unfold offline_html, no_match. by intros ->. Qed.

(** The leftmost reference of [pre ++ cdn_reference w v ++ post], when no
    start of a reference occurs in [pre], is the one after [pre]. *)
Lemma search_single_reference pre w v post :
  w <> [] -> all_space w -> quote_free v -> no_match CDN_HEAD_RE pre ->
  re_search CDN_SCRIPT_RE (pre ++ cdn_reference w v ++ post) =
    Some (length pre, length pre + length (cdn_reference w v)).
Proof.
  intros Hne Hw Hv Hpre. unfold re_search.
  rewrite search_from_app.
  - pose proof (cdn_match_reference w v post Hne Hw Hv) as Hm.
    destruct (cdn_reference w v ++ post) as [|c s] eqn:E.
    { unfold cdn_reference in E. discriminate. }
    cbn [search_from]. by rewrite Hm.
  - intros t Ht Hs. apply (cdn_head_absent _ pre); [done..|].
    by intros x [= <-].
Qed.

(** Nothing matches at a position of the inlined script. *)
Lemma inline_script_no_match js u :
  no_match CDN_HEAD_RE js -> no_match CDN_SCRIPT_RE u ->
  no_match CDN_SCRIPT_RE (inline_script js ++ u).
Proof.
  intros Hjs Hu. unfold no_match, re_search, inline_script in *.
  rewrite <- !app_assoc.
  assert (search_from CDN_SCRIPT_RE 0 (INLINE_CLOSE ++ u) = None) as Hc.
  { cbn. by apply (search_from_None_shift _ 0). }
  assert (search_from CDN_SCRIPT_RE 0 (js ++ INLINE_CLOSE ++ u) = None) as Hj.
  { rewrite search_from_app; [by apply (search_from_None_shift _ 0)|].
    intros t Ht Hs. apply (cdn_head_absent _ js); [done..|].
    by intros x [= <-]. }
  cbn. by apply (search_from_None_shift _ 0).
Qed.

(** ** Reading files *)

Lemma read_text_Some w p t :
  file_text w p = Some t -> read_text p w = (Ok t, w).
Proof.
  unfold file_text, read_text. destruct (w_fs w !! p); [|done].
  by intros [= ->].
Qed.

Lemma read_text_None w p :
  w_fs w !! p = None -> read_text p w = (Raise (FileNotFoundError p), w).
Proof. unfold read_text. by intros ->. Qed.

Lemma file_text_Some_inv w p t :
  file_text w p = Some t ->
  exists raw, w_fs w !! p = Some raw /\ t = universal_newlines raw.
Proof.
  unfold file_text. destruct (w_fs w !! p) as [raw|]; [|done].
  intros [= <-]. by exists raw.
Qed.


(** No carriage return is left in a text that was read. *)
Lemma universal_newlines_no_cr s : cr ∉ universal_newlines s.
Proof.
  assert (forall n s, length s <= n -> cr ∉ universal_newlines s) as H.
  { intros n. induction n as [|n IH]; intros t Hn.
    - destruct t; [|simpl in Hn; lia]. apply not_elem_of_nil.
    - destruct t as [|c t']; [apply not_elem_of_nil|].
      simpl in Hn. cbn [universal_newlines].
      destruct (N.eqb_spec c cr) as [->|Hc].
      + destruct t' as [|c' t''].
        * apply not_elem_of_cons. split; [done|apply not_elem_of_nil].
        * destruct (c' =? lf)%N; apply not_elem_of_cons;
            (split; [done|]); apply IH; simpl in *; lia.
      + apply not_elem_of_cons. split; [congruence|]. apply IH. lia. }
  by apply (H (length s)).
Qed.


(** ** Running the bundler *)

Lemma build_offline_html_run w html js :
  file_text w HTML_PATH = Some html -> file_text w MERMAID_JS = Some js ->
  build_offline_html w =
    (Ok OFFLINE_TMP,
     World (<[OFFLINE_TMP := offline_html html js]> (w_fs w)) (w_out w)).
Proof.
  intros Hh Hj. unfold build_offline_html, mbind, M_bind, bind.
  by rewrite (read_text_Some _ _ _ Hh), (read_text_Some _ _ _ Hj).
Qed.

Lemma build_offline_html_frame w p :
  p <> OFFLINE_TMP -> w_fs (build_offline_html w).2 !! p = w_fs w !! p.
Proof.
  intros Hp. unfold build_offline_html, mbind, M_bind, bind, read_text.
  destruct (w_fs w !! HTML_PATH); [|done].
  destruct (w_fs w !! MERMAID_JS); [|done].
  simpl. by rewrite lookup_insert_ne.
Qed.

(** C6. When the pattern of the script tag occurs nowhere in the document,
    the text the bundler produces, and writes to its file, is the document
    itself. *)
Theorem offline_noop_without_reference (w : world) (html js : text) :
  file_text w HTML_PATH = Some html ->
  file_text w MERMAID_JS = Some js ->
  no_match CDN_SCRIPT_RE html ->
  offline_html html js = html
  /\ build_offline_html w =
       (Ok OFFLINE_TMP, World (<[OFFLINE_TMP := html]> (w_fs w)) (w_out w)).
Proof.
  intros Hh Hj Hn. split; [by apply offline_html_not_found|].
  rewrite (build_offline_html_run w html js) by done.
  by rewrite offline_html_not_found.
Qed.

(** C8. The bundler leaves the source document as it was: the only path of
    the store it writes is that of its own file, which is not the source,
    and that file receives the bundled text. *)
Theorem bundler_preserves_source (w : world) :
  w_fs (build_offline_html w).2 !! HTML_PATH = w_fs w !! HTML_PATH
  /\ OFFLINE_TMP <> HTML_PATH
  /\ (forall p, p <> OFFLINE_TMP ->
        w_fs (build_offline_html w).2 !! p = w_fs w !! p)
  /\ (forall html js,
        file_text w HTML_PATH = Some html -> file_text w MERMAID_JS = Some js ->
        w_fs (build_offline_html w).2 !! OFFLINE_TMP
          = Some (offline_html html js)).
Proof.
  split; [by apply build_offline_html_frame|]. split; [done|].
  split; [intros p Hp; by apply build_offline_html_frame|].
  intros html js Hh Hj. rewrite (build_offline_html_run w html js) by done.
  simpl. apply lookup_insert_eq.
Qed.

Lemma bundler_preserves_source_witness :
  w_fs (build_offline_html (sample_world two_references)).2 !! HTML_PATH
    = Some two_references
  /\ w_fs (build_offline_html (sample_world two_references)).2 !! MERMAID_JS
     = Some sample_engine.
Proof.
  destruct (bundler_preserves_source (sample_world two_references))
    as (Hsrc & _ & Hframe & _).
  split; [by rewrite Hsrc|]. by rewrite Hframe.
Defined.

(** C9. When the document has a match of the pattern, the bundler puts the
    inlined engine in the place of the leftmost one, which is a reference,
    and keeps the text after it as it is: a reference matched further on
    in the document is matched, unchanged, at the shifted position of the
    output. *)
Theorem only_first_reference_replaced (html js : text) (a b : nat) :
  re_search CDN_SCRIPT_RE html = Some (a, b) ->
  offline_html html js
    = take a html ++ INLINE_OPEN ++ js ++ INLINE_CLOSE ++ drop b html
  /\ (exists w v, take (b - a) (drop a html) = cdn_reference w v
                  /\ w <> [] /\ all_space w /\ quote_free v)
  /\ (forall j, j < a -> match_here CDN_SCRIPT_RE (drop j html) = None)
  /\ (forall j st, b <= j ->
        match_here CDN_SCRIPT_RE (drop j html) = Some st ->
        drop (a + length (inline_script js) + (j - b)) (offline_html html js)
          = drop j html
        /\ match_here CDN_SCRIPT_RE
             (drop (a + length (inline_script js) + (j - b))
                   (offline_html html js)) = Some st).
Proof.
  intros H. pose proof (offline_html_found html js a b H) as Hout.
  apply search_from_Some in H as (_ & Hlen & Hbefore & st & Hst & ->).
  rewrite Nat.sub_0_r in *.
  split; [by rewrite Hout; unfold inline_script; rewrite <- !app_assoc|].
  split.
  { apply cdn_match_is_reference in Hst as (w & v & u & E & Hne & Hw & Hv & Hl).
    exists w, v. split; [|done].
    replace (a + m_end st - a) with (length (cdn_reference w v)) by lia.
    by rewrite E, take_app_length. }
  split.
  { intros j Hj. apply Hbefore. lia. }
  intros j st' Hj Hm.
  assert (drop (a + length (inline_script js) + (j - (a + m_end st)))
               (offline_html html js) = drop j html) as E.
  { rewrite Hout, app_assoc.
    rewrite drop_app_ge by (rewrite length_app, length_take; lia).
    rewrite length_app, length_take, drop_drop. f_equal. lia. }
  by rewrite E.
Qed.

Lemma offline_noop_without_reference_witness :
  offline_html sample_prefix sample_engine = sample_prefix
  /\ build_offline_html (sample_world sample_prefix) =
       (Ok OFFLINE_TMP,
        World (<[OFFLINE_TMP := sample_prefix]>
                 (w_fs (sample_world sample_prefix))) []).
Proof.
  apply (offline_noop_without_reference (sample_world sample_prefix)
           sample_prefix sample_engine); reflexivity.
Defined.

Lemma only_first_reference_replaced_witness :
  re_search CDN_SCRIPT_RE two_references = Some (6, 69)
  /\ offline_html two_references sample_engine
     = lit "<head>" ++ INLINE_OPEN ++ sample_engine ++ INLINE_CLOSE
       ++ lit "<!-- -->" ++ cdn_reference [sp] (lit "11") ++ lit "</head>".
Proof.
  split; [reflexivity|].
  destruct (only_first_reference_replaced two_references sample_engine 6 69)
    as [E _]; [reflexivity|].
  rewrite E. reflexivity.
Defined.

Lemma extract_blocks_in_order_witness :
  extract_mermaid_blocks (sample_prefix ++ blocks_text sample_blocks)
    = [lit "graph TD; A-->B<br/>C"; lit "flow"; []]
  /\ length (extract_mermaid_blocks (sample_prefix ++ blocks_text sample_blocks))
     = 3.
Proof.
  destruct (extract_blocks_in_order sample_prefix sample_blocks)
    as (E & L & _).
  - reflexivity.
  - repeat constructor; try reflexivity; done.
  - split; [exact E|exact L].
Defined.




(** ** File names *)

Lemma pretty_N_go_length x s :
  String.length s <= String.length (pretty_N_go x s).
Proof.
  revert s. induction (N.lt_wf_0 x) as [x _ IH]; intros s.
  destruct (decide (x = 0%N)) as [->|Hx]; [by rewrite pretty_N_go_0|].
  rewrite pretty_N_go_step by lia.
  etrans; [|apply IH; apply N.div_lt; lia]. simpl. lia.
Qed.

Lemma pretty_nat_length n : 10 <= n -> 2 <= String.length (pretty n).
Proof.
  intros Hn. unfold pretty, pretty_nat, pretty, pretty_N.
  destruct (decide (N.of_nat n = 0%N)); [lia|].
  rewrite pretty_N_go_step by lia.
  rewrite pretty_N_go_step by (apply N.div_str_pos; lia).
  etrans; [|apply pretty_N_go_length]. simpl. lia.
Qed.

(** The format specifier gives two digits, with a leading zero below ten,
    and all the digits from one hundred on. *)
Lemma format_02d_two_digits n : format_02d n = two_digits n.
Proof.
  unfold format_02d, two_digits. destruct (decide (n < 10)) as [Hn|Hn].
  - do 10 (destruct n as [|n]; [reflexivity|]). lia.
  - replace (2 - String.length (pretty n)) with 0; [done|].
    pose proof (pretty_nat_length n). lia.
Qed.

Lemma label_for_lookup labels i :
  label_for labels i =
    match labels !! i with
    | Some l => l
    | None => ("diagram_" +:+ pretty (i + 1))%string
    end.
Proof.
  unfold label_for. case_bool_decide as Hi.
  - apply lookup_lt_is_Some in Hi as [l Hl]. rewrite Hl.
    apply nth_lookup_Some with (d := ""%string) in Hl. done.
  - by rewrite lookup_ge_None_2 by lia.
Qed.

(** ** Running a render job *)

Lemma tmp_not_out labels i : tmp_path i <> out_path labels i.
Proof. done. Qed.

Lemma render_job_run br labels js total i code w :
  render_job br labels js total i code w =
    let fs1 := <[tmp_path i := build_single_diagram_html code js]> (w_fs w) in
    match job_outcome (job_page br js i code) with
    | Ok png =>
        (Ok tt,
         World (delete (tmp_path i) (<[out_path labels i := png]> fs1))
               (w_out w ++ [progress_line labels total i]))
    | Raise e => (Raise e, World fs1 (w_out w))
    end.
Proof.
  unfold render_job, job_outcome, job_page, mbind, M_bind, bind.
  unfold write_text at 1. unfold goto. cbn [w_fs w_out].
  rewrite lookup_insert_eq.
  set (pg := br_page br i (build_single_diagram_html code js)).
  destruct (pg_goto pg); [|done].
  unfold wait_for_function.
  destruct (existsb diagram_ready (pg_polls pg)); [|done].
  unfold screenshot, ret, raise.
  destruct (capture_target (pg_settled pg)) as [el|]; [|done].
  destruct (pg_shot pg el) as [png|]; [|done].
  reflexivity.
Qed.

(** A job that succeeds removes its ephemeral document. *)
Lemma render_job_success_removes_tmp br labels js total i code w png :
  job_outcome (job_page br js i code) = Ok png ->
  (render_job br labels js total i code w).1 = Ok tt
  /\ w_fs (render_job br labels js total i code w).2 !! tmp_path i = None.
Proof.
  intros H. rewrite render_job_run. cbn zeta. rewrite H.
  split; [done|]. apply lookup_delete_eq.
Qed.

(** C1, where it fails.  A render job that ends by an exception (a
    navigation or rendering timeout, no element to capture, a failed
    capture) ends with its ephemeral document still in the store: the
    removal is the last statement of the loop body and is not reached. *)
Theorem failed_job_leaves_ephemeral_file
    (br : browser) (labels : list string) (js : text) (total i : nat)
    (code : text) (w : world) (e : exn) :
  job_outcome (job_page br js i code) = Raise e ->
  (render_job br labels js total i code w).1 = Raise e
  /\ w_fs (render_job br labels js total i code w).2 !! tmp_path i
     = Some (build_single_diagram_html code js).
Proof.
  intros H. rewrite render_job_run. cbn zeta. rewrite H.
  split; [done|]. apply lookup_insert_eq.
Qed.

Lemma failed_job_leaves_ephemeral_file_witness :
  (render_job (browser_hanging_at 0) DIAGRAM_LABELS sample_engine 1 0
              (lit "graph TD; A-->B") (sample_world two_diagrams)).1
    = Raise WaitTimeout
  /\ w_fs (render_job (browser_hanging_at 0) DIAGRAM_LABELS sample_engine 1 0
                      (lit "graph TD; A-->B") (sample_world two_diagrams)).2
       !! tmp_path 0
     = Some (build_single_diagram_html (lit "graph TD; A-->B") sample_engine).
Proof.
  apply (failed_job_leaves_ephemeral_file (browser_hanging_at 0)).
  reflexivity.
Defined.

(** C7. A render job whose predicate is false at every evaluation before
    the timeout ends by an exception, the rendering timeout when navigation
    succeeded, and leaves the store as it was at the path of its output
    file: nothing is created or written there. *)
Theorem timeout_creates_no_output
    (br : browser) (labels : list string) (js : text) (total i : nat)
    (code : text) (w : world) :
  existsb diagram_ready (pg_polls (job_page br js i code)) = false ->
  is_ok (render_job br labels js total i code w).1 = false
  /\ w_fs (render_job br labels js total i code w).2 !! out_path labels i
     = w_fs w !! out_path labels i
  /\ (pg_goto (job_page br js i code) = true ->
      (render_job br labels js total i code w).1 = Raise WaitTimeout).
Proof.
  intros H. rewrite render_job_run. cbn zeta. unfold job_outcome. rewrite H.
  destruct (pg_goto (job_page br js i code)); cbn [fst snd w_fs is_ok];
    (split; [done|]); (split; [|done]);
    by rewrite lookup_insert_ne by apply tmp_not_out.
Qed.

Lemma timeout_creates_no_output_witness :
  (render_job (browser_hanging_at 0) DIAGRAM_LABELS sample_engine 1 0
              (lit "graph TD; A-->B") (sample_world two_diagrams)).1
    = Raise WaitTimeout
  /\ w_fs (render_job (browser_hanging_at 0) DIAGRAM_LABELS sample_engine 1 0
                      (lit "graph TD; A-->B") (sample_world two_diagrams)).2
       !! out_path DIAGRAM_LABELS 0
     = None.
Proof.
  destruct (timeout_creates_no_output (browser_hanging_at 0) DIAGRAM_LABELS
              sample_engine 1 0 (lit "graph TD; A-->B")
              (sample_world two_diagrams)) as (_ & Hfs & Hexn).
  - reflexivity.
  - split; [by apply Hexn|]. rewrite Hfs. reflexivity.
Defined.

(** C4. The output file of the diagram at position [i] is, in the image
    directory, the ordinal [i + 1] on two digits, an underscore, the
    [i]-th label of the table or, past the table, [diagram_] and the
    ordinal, and the extension; a job that succeeds writes its capture
    there.  With a table of two labels, three diagrams give
    [01_alpha], [02_beta], [03_diagram_3]. *)
Theorem output_file_name (labels : list string) (i : nat) :
  out_name labels i
    = (two_digits (i + 1) +:+ "_"
       +:+ match labels !! i with
           | Some l => l
           | None => "diagram_" +:+ pretty (i + 1)
           end
       +:+ ".png")%string
  /\ (forall br js total code w png,
        job_outcome (job_page br js i code) = Ok png ->
        w_fs (render_job br labels js total i code w).2
          !! (IMG_DIR ++ [out_name labels i]) = Some png)
  /\ map (out_name ["alpha"; "beta"]%string) [0; 1; 2]
     = ["01_alpha.png"; "02_beta.png"; "03_diagram_3.png"]%string.
Proof.
  split; [|split; [|reflexivity]].
  - unfold out_name. by rewrite format_02d_two_digits, label_for_lookup.
  - intros br js total code w png H. rewrite render_job_run. cbn zeta.
    rewrite H. cbn [snd w_fs]. fold (out_path labels i).
    rewrite lookup_delete_ne by apply tmp_not_out.
    apply lookup_insert_eq.
Qed.

Lemma output_file_name_witness :
  out_name DIAGRAM_LABELS 3 = "04_presolve_llm.png"%string
  /\ out_name DIAGRAM_LABELS 11 = "12_diagram_12.png"%string
  /\ w_fs (render_job (browser_hanging_at 1) DIAGRAM_LABELS sample_engine 2 0
                      (lit "graph TD; A-->B") (sample_world two_diagrams)).2
       !! (IMG_DIR ++ ["01_system_overview.png"%string])
     = Some (lit "PNG").
Proof.
  destruct (output_file_name DIAGRAM_LABELS 3) as (E3 & _ & _).
  destruct (output_file_name DIAGRAM_LABELS 11) as (E11 & _ & _).
  destruct (output_file_name DIAGRAM_LABELS 0) as (_ & H0 & _).
  split; [by rewrite E3|]. split; [by rewrite E11|].
  by apply (H0 (browser_hanging_at 1) sample_engine 2).
Defined.

(** ** Running the batch *)

Lemma render_loop_abort br labels js total e code rest done k w :
  (forall j c, done !! j = Some c ->
               is_ok (job_outcome (job_page br js (k + j) c)) = true) ->
  job_outcome (job_page br js (k + length done) code) = Raise e ->
  exists w',
    render_loop br labels js total k (done ++ code :: rest) w = (Raise e, w')
    /\ w_out w' = w_out w ++ map (progress_line labels total)
                                 (seq k (length done)).
Proof.
  revert k w. induction done as [|c done IH]; intros k w Hok Hfail.
  - rewrite Nat.add_0_r in Hfail. cbn [app render_loop].
    unfold mbind, M_bind, bind. rewrite render_job_run. cbn zeta.
    rewrite Hfail. eexists. split; [done|]. simpl. by rewrite app_nil_r.
  - cbn [app render_loop]. unfold mbind, M_bind, bind.
    rewrite render_job_run. cbn zeta.
    pose proof (Hok 0 c eq_refl) as H0. rewrite Nat.add_0_r in H0.
    destruct (job_outcome (job_page br js k c)) as [png|]; [|done].
    edestruct (IH (S k)) as (w' & E & L).
    { intros j c' Hj. replace (S k + j) with (k + S j) by lia.
      by apply Hok. }
    { by replace (S k + length done) with (k + length (c :: done))
        by (simpl; lia). }
    fold (render_loop br labels js total (S k) (done ++ code :: rest)).
    rewrite E. eexists. split; [done|].
    rewrite L. cbn [w_out length seq map]. by rewrite <- app_assoc.
Qed.

(** ** Running the document export *)

Lemma generate_pdf_main_run br w html js :
  file_text w HTML_PATH = Some html -> file_text w MERMAID_JS = Some js ->
  let doc := offline_html html js in
  let fs1 := <[OFFLINE_TMP := doc]> (w_fs w) in
  (generate_pdf_main br w).1 =
    match export_outcome br doc with
    | Ok _ => Ok tt
    | Raise e => Raise e
    end
  /\ w_fs (generate_pdf_main br w).2 =
       delete OFFLINE_TMP
         match export_outcome br doc with
         | Ok bytes => <[PDF_PATH := bytes]> fs1
         | Raise _ => fs1
         end.
Proof.
  intros Hh Hj doc fs1.
  unfold generate_pdf_main, mbind, M_bind, bind.
  rewrite (build_offline_html_run w html js Hh Hj). fold doc.
  unfold try_finally, export_body, export_outcome.
  unfold mbind, M_bind, bind, launch, goto, wait_for_function, pdf.
  unfold print, unlink, write_text, ret, raise. cbn [w_fs w_out].
  destruct (br_launch br); [|done]. cbn [w_fs w_out].
  rewrite lookup_insert_eq.
  destruct (pg_goto (br_page br 0 doc)); [|done].
  destruct (existsb all_diagrams_ready (pg_polls (br_page br 0 doc)));
    [|done].
  destruct (pg_pdf (br_page br 0 doc)); done.
Qed.

(** The document export removes its ephemeral document on every path. *)
Lemma generate_pdf_main_removes_tmp br w html js :
  file_text w HTML_PATH = Some html -> file_text w MERMAID_JS = Some js ->
  w_fs (generate_pdf_main br w).2 !! OFFLINE_TMP = None.
Proof.
  intros Hh Hj. destruct (generate_pdf_main_run br w html js Hh Hj) as [_ E].
  rewrite E. apply lookup_delete_eq.
Qed.

Lemma no_container_never_ready (polls : list dom) :
  Forall (fun d => d = []) polls -> existsb all_diagrams_ready polls = false.
Proof. induction 1 as [|d polls -> _ IH]; [done|]. simpl. exact IH. Qed.

(** C10. The predicate of the document export is false on a page without
    diagram container.  When the page has none at any evaluation, the
    export ends by an exception, the rendering timeout once the browser is
    launched and the page loaded, and the store is as it was at the path of
    the PDF. *)
Theorem export_needs_a_container
    (br : browser) (w : world) (html js : text) :
  file_text w HTML_PATH = Some html ->
  file_text w MERMAID_JS = Some js ->
  Forall (fun d => d = [])
         (pg_polls (br_page br 0 (offline_html html js))) ->
  all_diagrams_ready [] = false
  /\ is_ok (generate_pdf_main br w).1 = false
  /\ (br_launch br = true ->
      pg_goto (br_page br 0 (offline_html html js)) = true ->
      (generate_pdf_main br w).1 = Raise WaitTimeout)
  /\ w_fs (generate_pdf_main br w).2 !! PDF_PATH = w_fs w !! PDF_PATH.
Proof.
  intros Hh Hj Hpolls. split; [done|].
  destruct (generate_pdf_main_run br w html js Hh Hj) as [-> ->].
  unfold export_outcome. rewrite (no_container_never_ready _ Hpolls).
  destruct (br_launch br), (pg_goto (br_page br 0 (offline_html html js)));
    (split; [done|]); (split; [done|]);
    by rewrite lookup_delete_ne, lookup_insert_ne by done.
Qed.

Lemma export_needs_a_container_witness :
  all_diagrams_ready [] = false
  /\ (generate_pdf_main browser_without_diagrams
        (sample_world sample_prefix)).1 = Raise WaitTimeout
  /\ w_fs (generate_pdf_main browser_without_diagrams
             (sample_world sample_prefix)).2 !! PDF_PATH = None.
Proof.
  destruct (export_needs_a_container browser_without_diagrams
              (sample_world sample_prefix) sample_prefix sample_engine)
    as (H0 & _ & Hexn & Hfs); try reflexivity.
  - repeat constructor.
  - split; [exact H0|]. split; [by apply Hexn|]. rewrite Hfs. reflexivity.
Defined.

(** * Further properties of the two scripts *)

(** ** Every match of the block pattern is a well-delimited block *)

Section RepeatFails.
Context {R : Type} (p : char -> bool) (k : nat -> text -> option R).

Lemma greedy_fails s n :
  (forall m t, t `suffix_of` s -> k m t = None) -> greedy p k n s = None.
Proof.
  revert n. induction s as [|c s IH]; intros n Hk; simpl.
  - by apply Hk.
  - rewrite IH by (intros m t Ht; apply Hk; by apply suffix_cons_r).
    rewrite Hk by done. by destruct (p c).
Qed.

Lemma lazy_fails s n :
  (forall m t, t `suffix_of` s -> k m t = None) -> lazy p k n s = None.
Proof.
  revert n. induction s as [|c s IH]; intros n Hk; rewrite lazy_unfold.
  - by rewrite Hk.
  - rewrite Hk by done.
    rewrite IH by (intros m t Ht; apply Hk; by apply suffix_cons_r).
    by destruct (p c).
Qed.
End RepeatFails.

Lemma suffix_trans' (t1 t2 t3 : text) :
  t1 `suffix_of` t2 -> t2 `suffix_of` t3 -> t1 `suffix_of` t3.
Proof. intros. by etrans. Qed.

(** Without closing tag in the text, the part of the pattern after the
    class attribute fails, however the repetitions are tried. *)
Lemma body_run_fails st s :
  no_match CLOSING_TAG_RE s ->
  run (drop 3 MERMAID_BLOCK_RE) st s = None.
Proof.
  intros Hs. cbn [drop MERMAID_BLOCK_RE]. rewrite run_Star.
  apply greedy_fails. intros m1 t1 H1. rewrite run_GOpen, run_LazyStar.
  apply lazy_fails. intros m2 t2 H2. cbn [run].
  apply greedy_fails. intros m3 t3 H3.
  rewrite (no_closer_strip s); [done|done|].
  by repeat (eapply suffix_trans'; [eassumption|]).
Qed.

Lemma tag_head_rest_Some name attr s n s2 :
  tag_head_rest name attr s = Some (n, s2) ->
  exists w, s = name ++ w ++ attr ++ s2 /\ w <> [] /\ all_space w
            /\ n = length name + length w + length attr.
Proof.
  unfold tag_head_rest.
  destruct (strip_lit name s) as [[|c s1]|] eqn:E1; try done.
  destruct (is_space c) eqn:Hc; [|done].
  destruct (strip_lit attr (drop_while is_space s1)) as [s3|] eqn:E3; [|done].
  intros [= <- <-]. apply strip_lit_Some in E1, E3.
  exists (c :: take_while is_space s1). split; [|split; [done|split]].
  - rewrite E1. f_equal. rewrite <- app_comm_cons. f_equal.
    by rewrite <- E3, take_drop_while.
  - constructor; [done|apply take_while_Forall].
  - simpl. lia.
Qed.

Lemma block_match_head s :
  match_here MERMAID_BLOCK_RE s =
    match tag_head_rest PRE_OPEN PRE_CLASS s with
    | Some (n, s2) => run (drop 3 MERMAID_BLOCK_RE) (advance m_init n) s2
    | None => None
    end.
Proof.
  exact (tag_head_run (drop 1 PRE_OPEN) 99%N (drop 1 PRE_CLASS) eq_refl
           (drop 3 MERMAID_BLOCK_RE) m_init s).
Qed.

(** A text without closing tag holds no match of the block pattern. *)
Lemma no_closer_no_block s :
  no_match CLOSING_TAG_RE s -> match_here MERMAID_BLOCK_RE s = None.
Proof.
  intros Hs. rewrite block_match_head.
  destruct (tag_head_rest PRE_OPEN PRE_CLASS s) as [[n s2]|] eqn:E; [|done].
  apply tag_head_rest_Some in E as (w & -> & _).
  apply body_run_fails.
  rewrite !app_assoc in Hs. by apply no_match_app in Hs.
Qed.

Lemma strip_lit_extend l t u r :
  strip_lit l t = Some r -> strip_lit l (t ++ u) = Some (r ++ u).
Proof.
  intros H. apply strip_lit_Some in H as ->.
  by rewrite <- app_assoc, strip_lit_app.
Qed.

Lemma no_match_intro its s :
  (forall t, t `suffix_of` s -> match_here its t = None) -> no_match its s.
Proof.
  unfold no_match, re_search. generalize 0.
  induction s as [|c s IH]; intros i H; cbn [search_from].
  - by rewrite H.
  - rewrite H by done. apply IH. intros t Ht. apply H. by apply suffix_cons_r.
Qed.

(** A text with a closing tag splits at the first one. *)
Lemma first_closer s :
  no_match CLOSING_TAG_RE s
  \/ exists body u, s = body ++ PRE_CLOSE ++ u /\ no_match CLOSING_TAG_RE body.
Proof.
  induction s as [|c s IH]; [by left|].
  destruct (strip_lit PRE_CLOSE (c :: s)) as [u|] eqn:E.
  { right. exists [], u. split; [by apply strip_lit_Some in E|done]. }
  destruct IH as [Hn|(body & u & -> & Hb)].
  - left. unfold no_match, re_search, match_here, CLOSING_TAG_RE in *.
    cbn [drop MERMAID_BLOCK_RE search_from run] in *.
    unfold match_here. cbn [run]. rewrite E.
    by apply (search_from_None_shift _ 0).
  - right. exists (c :: body), u. split; [done|].
    apply no_match_intro. intros t Ht.
    unfold match_here, CLOSING_TAG_RE. cbn [drop MERMAID_BLOCK_RE run].
    destruct (strip_lit PRE_CLOSE t) as [r|] eqn:Et; [|done]. exfalso.
    destruct Ht as [pre Hpre]. destruct pre as [|x pre]; simpl in Hpre.
    + subst t. rewrite app_comm_cons in E.
      by rewrite (strip_lit_extend _ _ (PRE_CLOSE ++ u) _ Et) in E.
    + injection Hpre as _ ->.
      rewrite (no_closer_strip (pre ++ t) t) in Et; [done|done|by exists pre].
Qed.

Lemma block_match_sound s st :
  match_here MERMAID_BLOCK_RE s = Some st ->
  exists b u,
    s = block_text b ++ u /\ well_delimited b
    /\ m_end st = length (block_text b)
    /\ group1 st s = strip (b_body b).
Proof.
  intros H. pose proof H as H'. rewrite block_match_head in H'.
  destruct (tag_head_rest PRE_OPEN PRE_CLASS s) as [[n s2]|] eqn:E; [|done].
  apply tag_head_rest_Some in E as (w & -> & Hne & Hw & _).
  destruct (first_closer s2) as [Hn|(body & u & -> & Hb)].
  { by rewrite body_run_fails in H'. }
  exists (Block w body), u.
  assert (well_delimited (Block w body)) as Hwd by done.
  assert (PRE_OPEN ++ w ++ PRE_CLASS ++ body ++ PRE_CLOSE ++ u
          = block_text (Block w body) ++ u) as Es.
  { unfold block_text. cbn [b_space b_body]. by rewrite <- !app_assoc. }
  rewrite Es in *. rewrite (block_match _ u Hwd) in H.
  apply (inj Some) in H. subst st.
  split; [done|]. split; [done|]. split; [done|]. apply block_group.
Qed.

(** X1. Whatever the text, a match of the block pattern at its head is a
    well-delimited block: the tag name, white space, the class attribute, a
    body without closing tag and the closing tag; the match ends with the
    closing tag and its group 1 is the trimmed body. *)
Theorem block_match_is_block (s : text) (st : mstate) :
  match_here MERMAID_BLOCK_RE s = Some st ->
  exists b u,
    s = block_text b ++ u /\ well_delimited b
    /\ m_end st = length (block_text b)
    /\ group1 st s = strip (b_body b).
Proof. apply block_match_sound. Qed.



Lemma block_match_is_block_witness :
  exists b u,
    blocks_text sample_blocks = block_text b ++ u /\ well_delimited b
    /\ 51 = length (block_text b)
    /\ group1 (MState 51 23 44) (blocks_text sample_blocks)
       = strip (b_body b).
Proof.
  apply (block_match_is_block (blocks_text sample_blocks) (MState 51 23 44)).
  reflexivity.
Defined.

(** ** What extraction returns, whatever the document *)

Lemma head_not_fixed p (y : text) : head_not p y -> drop_while p y = y.
Proof.
  destruct y as [|c y]; [done|]. intros H. simpl. by rewrite (H c).
Qed.

Lemma rstrip_head_not y : head_not is_space y -> head_not is_space (rstrip y).
Proof.
  destruct y as [|c y]; [done|]. intros H. cbn [rstrip].
  destruct (forallb is_space (c :: y)); [by intros x|].
  intros x [= <-]. by apply H.
Qed.

Lemma rstrip_not_all_space y :
  forallb is_space y = false -> forallb is_space (rstrip y) = false.
Proof.
  induction y as [|c y IH]; [done|]. intros H. cbn [rstrip]. rewrite H.
  cbn [forallb] in *. destruct (is_space c); [|done]. by apply IH.
Qed.

Lemma rstrip_idemp y : rstrip (rstrip y) = rstrip y.
Proof.
  induction y as [|c y IH]; [done|]. cbn [rstrip].
  destruct (forallb is_space (c :: y)) eqn:E; [done|].
  cbn [rstrip]. rewrite IH.
  assert (forallb is_space (c :: rstrip y) = false) as ->; [|done].
  cbn [forallb] in *. destruct (is_space c); [|done]. by apply rstrip_not_all_space.
Qed.

Lemma rstrip_prefix y : exists tl, y = rstrip y ++ tl.
Proof.
  induction y as [|c y [tl IH]]; [by exists []|]. cbn [rstrip].
  destruct (forallb is_space (c :: y)).
  - by exists (c :: y).
  - exists tl. simpl. by rewrite <- IH.
Qed.

Lemma strip_stripped b : lstrip (strip b) = strip b /\ rstrip (strip b) = strip b.
Proof.
  unfold strip, lstrip. split; [|apply rstrip_idemp].
  apply head_not_fixed, rstrip_head_not, drop_while_head.
Qed.

Lemma no_closer_prefix x y :
  no_match CLOSING_TAG_RE (x ++ y) -> no_match CLOSING_TAG_RE x.
Proof.
  intros H. apply no_match_intro. intros t [pre ->].
  unfold match_here, CLOSING_TAG_RE. cbn [drop MERMAID_BLOCK_RE run].
  destruct (strip_lit PRE_CLOSE t) as [r|] eqn:E; [|done].
  apply (strip_lit_extend _ _ y) in E.
  rewrite (no_closer_strip ((pre ++ t) ++ y) (t ++ y)) in E; [done|done|].
  exists pre. by rewrite app_assoc.
Qed.

Lemma strip_no_closer b :
  no_match CLOSING_TAG_RE b -> no_match CLOSING_TAG_RE (strip b).
Proof.
  intros H. unfold strip, lstrip.
  destruct (rstrip_prefix (drop_while is_space b)) as [tl E].
  apply (no_closer_prefix _ tl). rewrite <- E.
  apply (no_match_app _ (take_while is_space b)). by rewrite take_drop_while.
Qed.

Lemma findall_entries s skip :
  Forall (fun e => exists b, well_delimited b /\ e = strip (b_body b))
         (findall_from MERMAID_BLOCK_RE s skip).
Proof.
  revert skip. induction s as [|c s IH]; intros [|j]; cbn [findall_from];
    try done.
  destruct (match_here MERMAID_BLOCK_RE (c :: s)) as [st|] eqn:E; [|done].
  constructor; [|done].
  apply block_match_sound in E as (b & u & _ & Hb & _ & Hg). by exists b.
Qed.

(** X2. Whatever the document, an extracted diagram has no white space
    at its start or at its end and holds no closing tag. *)
Theorem extracted_blocks_are_trimmed (html e : text) :
  e ∈ extract_mermaid_blocks html ->
  lstrip e = e /\ rstrip e = e /\ no_match CLOSING_TAG_RE e.
Proof.
  intros He. pose proof (findall_entries html 0) as H.
  rewrite Forall_forall in H. apply H in He as (b & (_ & _ & Hb) & ->).
  destruct (strip_stripped (b_body b)). split; [done|]. split; [done|].
  by apply strip_no_closer.
Qed.

Lemma extracted_blocks_are_trimmed_witness :
  lstrip (lit "graph TD; A-->B<br/>C") = lit "graph TD; A-->B<br/>C"
  /\ rstrip (lit "graph TD; A-->B<br/>C") = lit "graph TD; A-->B<br/>C"
  /\ no_match CLOSING_TAG_RE (lit "graph TD; A-->B<br/>C").
Proof.
  apply (extracted_blocks_are_trimmed
           (sample_prefix ++ blocks_text sample_blocks)).
  apply (bool_decide_unpack _). by vm_compute.
Defined.

Lemma no_closer_findall s :
  no_match CLOSING_TAG_RE s -> findall_from MERMAID_BLOCK_RE s 0 = [].
Proof.
  intros H. rewrite <- (app_nil_r s). rewrite findall_from_app; [done|].
  intros t _ Ht. rewrite app_nil_r. apply no_closer_no_block.
  destruct Ht as [pre ->]. by apply no_match_app in H.
Qed.

(** X3. A document without closing tag gives no diagram, whatever opening
    tags it holds: a block that is not closed is dropped without error. *)
Theorem unclosed_blocks_are_dropped (html : text) :
  no_match CLOSING_TAG_RE html -> extract_mermaid_blocks html = [].
Proof. apply no_closer_findall. Qed.

Lemma unclosed_blocks_are_dropped_witness :
  extract_mermaid_blocks
    (lit "<p>" ++ PRE_OPEN ++ [sp] ++ PRE_CLASS ++ lit "graph TD; A-->B</pr")
  = [].
Proof. apply unclosed_blocks_are_dropped. reflexivity. Defined.

(** ** The language of the bundler's pattern *)

(** X4. The pattern of the bundler matches at the head of a text exactly
    when the text starts with a reference: the tag name, white space, the
    source attribute with the address, a version without double quote,
    and the end of the tag; the match is that reference. *)
Theorem cdn_pattern_language (s : text) (st : mstate) :
  match_here CDN_SCRIPT_RE s = Some st
  <-> exists w v u,
        s = cdn_reference w v ++ u /\ w <> [] /\ all_space w /\ quote_free v
        /\ st = MState (length (cdn_reference w v)) 0 0.
Proof.
  split.
  - intros H.
    destruct (cdn_match_is_reference s st H)
      as (w & v & u & -> & Hne & Hw & Hv & _).
    exists w, v, u. rewrite cdn_match_reference in H by done.
    by apply (inj Some) in H.
  - intros (w & v & u & -> & Hne & Hw & Hv & ->).
    by apply cdn_match_reference.
Qed.

Lemma cdn_pattern_language_witness :
  match_here CDN_SCRIPT_RE (cdn_reference [sp; nl] [] ++ lit "<p>")
  = Some (MState (length (cdn_reference [sp; nl] [])) 0 0).
Proof.
  apply cdn_pattern_language. exists [sp; nl], [], (lit "<p>").
  repeat split; try done; repeat constructor.
Defined.

(** ** Bundling twice *)

Lemma single_reference_offline pre s v post js :
  s <> [] -> all_space s -> quote_free v ->
  no_match CDN_HEAD_RE pre -> no_match CDN_SCRIPT_RE post ->
  no_match CDN_HEAD_RE js ->
  offline_html (pre ++ cdn_reference s v ++ post) js
    = pre ++ inline_script js ++ post
  /\ no_match CDN_SCRIPT_RE (pre ++ inline_script js ++ post).
Proof.
  intros Hne Hs Hv Hpre Hpost Hjs. split.
  - rewrite (offline_html_found _ _ _ _
               (search_single_reference pre s v post Hne Hs Hv Hpre)).
    rewrite take_app_length.
    replace (length pre + length (cdn_reference s v))
      with (length (pre ++ cdn_reference s v)) by by rewrite length_app.
    by rewrite (app_assoc pre (cdn_reference s v) post), drop_app_length.
  - pose proof (inline_script_no_match js post Hjs Hpost) as Hn.
    unfold no_match, re_search in *. rewrite search_from_app.
    + by apply (search_from_None_shift _ 0).
    + intros t Ht Hsuf. apply (cdn_head_absent _ pre); [done..|].
      by intros x [= <-].
Qed.

(** X5. On a document with one reference (no start of a reference before
    it, no reference after it) and an engine asset without start of a
    reference, bundling the bundled text again changes nothing. *)
Theorem bundling_twice (pre s v post js : text) :
  s <> [] -> all_space s -> quote_free v ->
  no_match CDN_HEAD_RE pre -> no_match CDN_SCRIPT_RE post ->
  no_match CDN_HEAD_RE js ->
  offline_html (offline_html (pre ++ cdn_reference s v ++ post) js) js
    = offline_html (pre ++ cdn_reference s v ++ post) js.
Proof.
  intros Hne Hs Hv Hpre Hpost Hjs.
  destruct (single_reference_offline pre s v post js) as [-> Hn]; try done.
  by apply offline_html_not_found.
Qed.

Lemma bundling_twice_witness :
  offline_html
    (offline_html (one_reference_pre ++ cdn_reference [sp] (lit "10")
                   ++ one_reference_post) sample_engine) sample_engine
  = offline_html (one_reference_pre ++ cdn_reference [sp] (lit "10")
                  ++ one_reference_post) sample_engine.
Proof.
  apply bundling_twice; try reflexivity; try done; repeat constructor.
Defined.

(** ** File names do not collide *)

Lemma string_app_inv_head (s a b : string) : s +:+ a = s +:+ b -> a = b.
Proof. induction s as [|c s IH]; simpl; [done|]. intros [= H]. by apply IH. Qed.

Lemma pretty_N_char_digit x : is_digit (pretty_N_char x) = true.
Proof. unfold pretty_N_char. by repeat case_match. Qed.

Lemma pretty_N_go_digits x s :
  all_digits s = true -> all_digits (pretty_N_go x s) = true.
Proof.
  revert s. induction (N.lt_wf_0 x) as [x _ IH]; intros s Hs.
  destruct (decide (x = 0%N)) as [->|Hx]; [by rewrite pretty_N_go_0|].
  rewrite pretty_N_go_step by lia. apply IH; [apply N.div_lt; lia|].
  simpl. by rewrite pretty_N_char_digit.
Qed.

Lemma pretty_nat_digits (n : nat) : all_digits (pretty n) = true.
Proof.
  unfold pretty, pretty_nat, pretty, pretty_N. case_decide; [done|].
  by apply pretty_N_go_digits.
Qed.

Lemma pretty_N_go_leading x s :
  (0 < x)%N -> exists c r, pretty_N_go x s = String c r /\ c <> "0"%char.
Proof.
  revert s. induction (N.lt_wf_0 x) as [x _ IH]; intros s Hx.
  rewrite pretty_N_go_step by done.
  destruct (decide (x < 10)%N) as [E|E].
  - rewrite N.div_small, pretty_N_go_0 by done. eexists _, _. split; [done|].
    rewrite N.mod_small by done.
    assert (x = 1 \/ x = 2 \/ x = 3 \/ x = 4 \/ x = 5 \/ x = 6 \/ x = 7
            \/ x = 8 \/ x = 9)%N as Hc by lia.
    repeat (destruct Hc as [->|Hc]; [done|]). by subst.
  - apply IH; [apply N.div_lt; lia|apply N.div_str_pos; lia].
Qed.

Lemma pretty_nat_leading n :
  0 < n -> exists c r, pretty n = String c r /\ c <> "0"%char.
Proof.
  intros Hn. unfold pretty, pretty_nat, pretty, pretty_N.
  case_decide; [lia|]. apply pretty_N_go_leading. lia.
Qed.

(** Digits up to a character that is not a digit: the digits are
    determined. *)
Lemma digits_then_sep d1 d2 c x y :
  all_digits d1 = true -> all_digits d2 = true -> is_digit c = false ->
  d1 +:+ String c x = d2 +:+ String c y -> d1 = d2 /\ x = y.
Proof.
  intros H1 H2 Hc. revert d2 H2.
  induction d1 as [|a d1 IH]; intros [|b d2] H2; simpl in *.
  - by intros [= ->].
  - intros [= <- _]. apply andb_true_iff in H2 as [H2 _]. congruence.
  - intros [= -> _]. apply andb_true_iff in H1 as [H1 _]. congruence.
  - apply andb_true_iff in H1 as [_ H1], H2 as [_ H2].
    intros [= -> H]. apply IH in H as [-> ->]; done.
Qed.

Lemma two_digits_digits n : all_digits (two_digits n) = true.
Proof.
  unfold two_digits. case_decide; [|apply pretty_nat_digits].
  simpl. apply pretty_nat_digits.
Qed.

Lemma two_digits_inj n m : 0 < m -> two_digits n = two_digits m -> n = m.
Proof.
  intros Hm. unfold two_digits.
  destruct (decide (n < 10)), (decide (m < 10)); simpl.
  - intros [= H]. by apply (inj pretty).
  - intros H. destruct (pretty_nat_leading m Hm) as (c & r & E & Hc).
    rewrite E in H. by injection H as <- _.
  - intros H. destruct (pretty_nat_leading n) as (c & r & E & Hc); [lia|].
    rewrite E in H. by injection H as -> _.
  - apply (inj pretty).
Qed.

Lemma out_name_inj labels i j : out_name labels i = out_name labels j -> i = j.
Proof.
  unfold out_name. rewrite !format_02d_two_digits. intros H.
  apply digits_then_sep in H as [H _];
    [|apply two_digits_digits|apply two_digits_digits|done].
  apply two_digits_inj in H; lia.
Qed.

Lemma tmp_path_inj i j : tmp_path i = tmp_path j -> i = j.
Proof.
  unfold tmp_path. intros H. apply app_inv_head in H. injection H as H.
  apply string_app_inv_head, digits_then_sep in H as [H _];
    [|apply pretty_nat_digits|apply pretty_nat_digits|done].
  by apply (inj pretty).
Qed.

(** X6. The jobs of a batch do not share a file: different positions have
    different output paths and different ephemeral paths, for any label
    table; and no ephemeral path is an output path, the source document or
    the engine asset. *)
Theorem job_paths_distinct (labels : list string) (i j : nat) :
  i <> j ->
  out_path labels i <> out_path labels j
  /\ tmp_path i <> tmp_path j
  /\ tmp_path i <> out_path labels j
  /\ tmp_path i <> HTML_PATH /\ tmp_path i <> MERMAID_JS
  /\ out_path labels i <> HTML_PATH /\ out_path labels i <> MERMAID_JS.
Proof.
  intros Hij. split; [|split].
  - intros H. apply app_inv_head in H. injection H as H.
    by apply out_name_inj in H.
  - intros H. by apply tmp_path_inj in H.
  - repeat split; done.
Qed.

Lemma job_paths_distinct_witness :
  out_path ["same"; "same"]%string 0 <> out_path ["same"; "same"]%string 1
  /\ tmp_path 0 <> tmp_path 1.
Proof.
  destruct (job_paths_distinct ["same"; "same"]%string 0 1) as (H1 & H2 & _);
    [lia|]. by split.
Defined.

(** ** The whole batch *)

Lemma tmp_path_not_out labels i j : tmp_path i <> out_path labels j.
Proof. done. Qed.

Lemma render_loop_run br labels js total k blocks w :
  render_loop br labels js total k blocks w =
    (batch_result br js k blocks,
     World (batch_store br labels js k blocks (w_fs w))
           (w_out w ++ map (progress_line labels total)
                           (seq k (jobs_done br js k blocks)))).
Proof.
  revert k w. induction blocks as [|code rest IH]; intros k w.
  - cbn. rewrite app_nil_r. by destruct w.
  - cbn [render_loop batch_result batch_store jobs_done].
    unfold mbind, M_bind, bind. rewrite render_job_run. cbn zeta.
    destruct (job_outcome (job_page br js k code)) as [png|e].
    + fold (render_loop br labels js total (S k) rest). rewrite IH.
      cbn [w_fs w_out is_ok seq map]. by rewrite <- app_assoc.
    + cbn. by rewrite app_nil_r.
Qed.

Lemma all_jobs_ok_from br js k blocks :
  (forall j code, blocks !! j = Some code ->
                  is_ok (job_outcome (job_page br js (k + j) code)) = true) ->
  batch_result br js k blocks = Ok tt
  /\ jobs_done br js k blocks = length blocks.
Proof.
  revert k. induction blocks as [|code rest IH]; intros k H; [done|].
  cbn [batch_result jobs_done length].
  pose proof (H 0 code eq_refl) as H0. rewrite Nat.add_0_r in H0.
  destruct (job_outcome (job_page br js k code)); [|done].
  destruct (IH (S k)) as [-> ->]; [|done].
  intros j c Hj. replace (S k + j) with (k + S j) by lia. by apply H.
Qed.

(** Paths that are not those of the jobs keep their content. *)
Lemma batch_store_frame br labels js k blocks fs p :
  (forall i, k <= i < k + length blocks ->
             p <> tmp_path i /\ p <> out_path labels i) ->
  batch_store br labels js k blocks fs !! p = fs !! p.
Proof.
  revert k fs. induction blocks as [|code rest IH]; intros k fs Hp; [done|].
  cbn [batch_store]. cbn zeta.
  destruct (Hp k) as [Ht Ho]; [simpl; lia|].
  destruct (job_outcome (job_page br js k code)) as [png|e].
  - rewrite IH by (intros i Hi; apply Hp; simpl; lia).
    by rewrite lookup_delete_ne, !lookup_insert_ne.
  - by rewrite lookup_insert_ne.
Qed.

(** The output of a completed job stays in the store. *)
Lemma batch_store_out br labels js k blocks fs j code png :
  blocks !! j = Some code -> j < jobs_done br js k blocks ->
  job_outcome (job_page br js (k + j) code) = Ok png ->
  batch_store br labels js k blocks fs !! out_path labels (k + j) = Some png.
Proof.
  revert k fs j. induction blocks as [|c rest IH]; intros k fs j Hj Hd Hpng;
    [done|].
  cbn [batch_store jobs_done] in *. cbn zeta.
  destruct j as [|j]; simpl in Hj.
  - injection Hj as ->. rewrite Nat.add_0_r in *. rewrite Hpng.
    rewrite batch_store_frame.
    + rewrite lookup_delete_ne by apply tmp_not_out. apply lookup_insert_eq.
    + intros i Hi. split; [apply not_eq_sym, tmp_path_not_out|].
      intros H. apply app_inv_head in H. injection H as H.
      apply out_name_inj in H. lia.
  - destruct (job_outcome (job_page br js k c)) as [png0|e]; [|simpl in Hd; lia].
    replace (k + S j) with (S k + j) in * by lia.
    apply IH; [done|simpl in Hd; lia|done].
Qed.

(** The ephemeral document of a completed job is gone. *)
Lemma batch_store_tmp br labels js k blocks fs j :
  j < jobs_done br js k blocks ->
  batch_store br labels js k blocks fs !! tmp_path (k + j) = None.
Proof.
  revert k fs j. induction blocks as [|c rest IH]; intros k fs j Hd;
    [simpl in Hd; lia|].
  cbn [batch_store jobs_done] in *. cbn zeta.
  destruct (job_outcome (job_page br js k c)) as [png0|e]; [|simpl in Hd; lia].
  destruct j as [|j].
  - rewrite Nat.add_0_r. rewrite batch_store_frame.
    + apply lookup_delete_eq.
    + intros i Hi. split; [|apply tmp_path_not_out].
      intros H. apply tmp_path_inj in H. lia.
  - replace (k + S j) with (S k + j) by lia. apply IH. simpl in Hd. lia.
Qed.

(** The ephemeral document of the job that fails is left. *)
Lemma batch_store_failed_tmp br labels js k blocks fs code e :
  blocks !! jobs_done br js k blocks = Some code ->
  job_outcome (job_page br js (k + jobs_done br js k blocks) code) = Raise e ->
  batch_store br labels js k blocks fs
    !! tmp_path (k + jobs_done br js k blocks)
  = Some (build_single_diagram_html code js).
Proof.
  revert k fs. induction blocks as [|c rest IH]; intros k fs; [done|].
  cbn [batch_store jobs_done]. cbn zeta.
  destruct (job_outcome (job_page br js k c)) as [png0|e0] eqn:E; cbn [is_ok].
  - cbn [lookup list_lookup]. intros Hc He.
    replace (k + S (jobs_done br js (S k) rest))
      with (S k + jobs_done br js (S k) rest) in * by lia.
    by apply IH.
  - intros [= ->] _. rewrite Nat.add_0_r. apply lookup_insert_eq.
Qed.

Lemma render_diagrams_main_run br w html js :
  w_fs w !! IMG_DIR = None ->
  file_text w HTML_PATH = Some html -> file_text w MERMAID_JS = Some js ->
  br_launch br = true ->
  let blocks := extract_mermaid_blocks html in
  let n := length blocks in
  render_diagrams_main br w =
    (batch_result br js 0 blocks,
     World (batch_store br DIAGRAM_LABELS js 0 blocks (w_fs w))
           (w_out w ++ found_line n
            :: map (progress_line DIAGRAM_LABELS n)
                   (seq 0 (jobs_done br js 0 blocks))
            ++ match batch_result br js 0 blocks with
               | Ok _ => [summary_line]
               | Raise _ => []
               end)).
Proof.
  intros Himg Hh Hj Hl blocks n.
  unfold render_diagrams_main, mbind, M_bind, bind.
  unfold mkdir_exist_ok at 1. rewrite Himg.
  rewrite (read_text_Some _ _ _ Hh), (read_text_Some _ _ _ Hj).
  unfold print at 1, launch. rewrite Hl. unfold ret at 1.
  fold blocks. fold n. rewrite render_loop_run. cbn [w_fs w_out].
  destruct (batch_result br js 0 blocks); unfold print; cbn [w_fs w_out].
  - destruct a. by rewrite <- !app_assoc.
  - by rewrite app_nil_r, <- app_assoc.
Qed.

Lemma jobs_done_first_failure br js k blocks i code e :
  blocks !! i = Some code ->
  (forall j c, j < i -> blocks !! j = Some c ->
               is_ok (job_outcome (job_page br js (k + j) c)) = true) ->
  job_outcome (job_page br js (k + i) code) = Raise e ->
  jobs_done br js k blocks = i /\ batch_result br js k blocks = Raise e.
Proof.
  revert k i. induction blocks as [|c rest IH]; intros k i Hi Hok He; [done|].
  cbn [jobs_done batch_result]. destruct i as [|i]; simpl in Hi.
  - injection Hi as ->. rewrite Nat.add_0_r in He. by rewrite He.
  - pose proof (Hok 0 c ltac:(lia) eq_refl) as H0. rewrite Nat.add_0_r in H0.
    destruct (job_outcome (job_page br js k c)); [|done]. cbn [is_ok].
    destruct (IH (S k) i) as [-> ->]; [done| | |done].
    + intros j c' Hj Hc. replace (S k + j) with (k + S j) by lia.
      apply Hok; [lia|done].
    + by replace (S k + i) with (k + S i) by lia.
Qed.

(** Paths that are not those of the jobs run keep their content: the
    jobs that completed touch their ephemeral and output paths, the job that
    failed its ephemeral path only, the later ones nothing. *)
Lemma batch_store_frame_exact br labels js k blocks fs p :
  (forall j, k <= j < k + jobs_done br js k blocks ->
             p <> tmp_path j /\ p <> out_path labels j) ->
  p <> tmp_path (k + jobs_done br js k blocks) ->
  batch_store br labels js k blocks fs !! p = fs !! p.
Proof.
  revert k fs. induction blocks as [|code rest IH]; intros k fs Hp Ht; [done|].
  cbn [batch_store jobs_done] in *. cbn zeta.
  destruct (job_outcome (job_page br js k code)) as [png|e]; cbn [is_ok] in *.
  - destruct (Hp k) as [Hkt Hko]; [lia|].
    rewrite IH.
    + by rewrite lookup_delete_ne, !lookup_insert_ne.
    + intros j Hj. apply Hp. lia.
    + by replace (S k + jobs_done br js (S k) rest)
        with (k + S (jobs_done br js (S k) rest)) by lia.
  - rewrite Nat.add_0_r in Ht. by rewrite lookup_insert_ne.
Qed.

(** C2, as amended.  When the job of the diagram at position [i] ends by
    an exception and the jobs before it succeeded, the exception leaves the
    loop and [main]: the console shows the count of diagrams and the
    progress lines of the [i] jobs done, and no later job is run: no output
    path from [i] on and no ephemeral path after [i] is written, and the
    only paths of the store that can differ are the ephemeral and output
    paths of the jobs done and the ephemeral path of job [i]. *)
Theorem batch_stops_at_first_failure
    (br : browser) (w : world) (html js : text) (i : nat) (code : text)
    (e : exn) :
  w_fs w !! IMG_DIR = None ->
  file_text w HTML_PATH = Some html ->
  file_text w MERMAID_JS = Some js ->
  br_launch br = true ->
  extract_mermaid_blocks html !! i = Some code ->
  (forall j c, j < i -> extract_mermaid_blocks html !! j = Some c ->
               is_ok (job_outcome (job_page br js j c)) = true) ->
  job_outcome (job_page br js i code) = Raise e ->
  exists w',
    render_diagrams_main br w = (Raise e, w')
    /\ w_out w' =
         w_out w
         ++ found_line (length (extract_mermaid_blocks html))
         :: map (progress_line DIAGRAM_LABELS
                   (length (extract_mermaid_blocks html)))
                (seq 0 i)
    /\ (forall j, i <= j ->
          w_fs w' !! out_path DIAGRAM_LABELS j
            = w_fs w !! out_path DIAGRAM_LABELS j)
    /\ (forall j, i < j -> w_fs w' !! tmp_path j = w_fs w !! tmp_path j)
    /\ (forall p,
          (forall j, j < i ->
                     p <> tmp_path j /\ p <> out_path DIAGRAM_LABELS j) ->
          p <> tmp_path i ->
          w_fs w' !! p = w_fs w !! p).
Proof.
  intros Himg Hh Hj Hl Hi Hok Hfail.
  rewrite (render_diagrams_main_run br w html js) by done. cbn zeta.
  set (blocks := extract_mermaid_blocks html) in *.
  destruct (jobs_done_first_failure br js 0 blocks i code e) as [Hd Hr];
    [done..|].
  rewrite Hr, Hd. eexists. split; [reflexivity|]. cbn [w_fs w_out].
  split; [by rewrite app_nil_r|].
  assert (forall p,
            (forall j, j < i ->
                       p <> tmp_path j /\ p <> out_path DIAGRAM_LABELS j) ->
            p <> tmp_path i ->
            batch_store br DIAGRAM_LABELS js 0 blocks (w_fs w) !! p
              = w_fs w !! p) as Hframe.
  { intros p Hp Ht. apply batch_store_frame_exact; rewrite Hd.
    - intros j Hj'. apply Hp. lia.
    - done. }
  split; [|split; [|done]].
  - intros j Hij. apply Hframe; [|apply not_eq_sym, tmp_path_not_out].
    intros j' Hj'. split; [apply not_eq_sym, tmp_path_not_out|].
    intros H. apply app_inv_head in H. injection H as H.
    apply out_name_inj in H. lia.
  - intros j Hij. apply Hframe.
    + intros j' Hj'. split; [|apply tmp_path_not_out].
      intros H. apply tmp_path_inj in H. lia.
    + intros H. apply tmp_path_inj in H. lia.
Qed.

Lemma batch_stops_at_first_failure_witness :
  exists w',
    render_diagrams_main (browser_hanging_at 1) (sample_world two_diagrams)
      = (Raise WaitTimeout, w')
    /\ w_out w' =
         ["Found 2 Mermaid diagrams";
          "  [1/2] system_overview -> 01_system_overview.png"]%string
    /\ w_fs w' !! out_path DIAGRAM_LABELS 1 = None
    /\ w_fs w' !! tmp_path 2 = None.
Proof.
  destruct (batch_stops_at_first_failure (browser_hanging_at 1)
              (sample_world two_diagrams) two_diagrams sample_engine 1
              (lit "graph LR; C-->D") WaitTimeout)
    as (w' & E & L & Hout & Htmp & _); try reflexivity.
  - intros j c Hj Hc. destruct j as [|j]; [|lia].
    vm_compute in Hc. injection Hc as <-. reflexivity.
  - exists w'. split; [exact E|]. split; [by rewrite L|].
    split; [by rewrite Hout by lia|]. by rewrite Htmp by lia.
Defined.

(** C2, as stated, fails on a batch of two diagrams whose first page never
    finishes rendering: [main] ends by the timeout exception, and the job
    of the second diagram, which would have succeeded, is not run: no
    progress line, no output file. *)
Lemma first_failure_aborts_batch :
  (render_diagrams_main (browser_hanging_at 0) (sample_world two_diagrams)).1
    = Raise WaitTimeout
  /\ job_outcome (job_page (browser_hanging_at 0) sample_engine 1
                           (lit "graph LR; C-->D"))
     = Ok (lit "PNG")
  /\ w_fs (render_diagrams_main (browser_hanging_at 0)
             (sample_world two_diagrams)).2 !! out_path DIAGRAM_LABELS 1
     = None
  /\ w_out (render_diagrams_main (browser_hanging_at 0)
              (sample_world two_diagrams)).2
     = ["Found 2 Mermaid diagrams"%string].
Proof. repeat split; by vm_compute. Qed.

(** X7. When the image directory is not a regular file and every job of
    the batch succeeds, [main] returns normally; the
    console shows the count, one progress line per diagram in the order of
    the document, and the summary; the capture of each diagram is at its
    output path; no ephemeral document is left; and no other path of the
    store has changed. *)
Theorem batch_success (br : browser) (w : world) (html js : text) :
  w_fs w !! IMG_DIR = None ->
  file_text w HTML_PATH = Some html ->
  file_text w MERMAID_JS = Some js ->
  br_launch br = true ->
  all_jobs_ok br js (extract_mermaid_blocks html) ->
  (render_diagrams_main br w).1 = Ok tt
  /\ w_out (render_diagrams_main br w).2 =
       w_out w
       ++ found_line (length (extract_mermaid_blocks html))
       :: map (progress_line DIAGRAM_LABELS
                 (length (extract_mermaid_blocks html)))
              (seq 0 (length (extract_mermaid_blocks html)))
       ++ [summary_line]
  /\ (forall i code png,
        extract_mermaid_blocks html !! i = Some code ->
        job_outcome (job_page br js i code) = Ok png ->
        w_fs (render_diagrams_main br w).2 !! out_path DIAGRAM_LABELS i
          = Some png)
  /\ (forall i, i < length (extract_mermaid_blocks html) ->
        w_fs (render_diagrams_main br w).2 !! tmp_path i = None)
  /\ (forall p,
        (forall i, i < length (extract_mermaid_blocks html) ->
                   p <> tmp_path i /\ p <> out_path DIAGRAM_LABELS i) ->
        w_fs (render_diagrams_main br w).2 !! p = w_fs w !! p).
Proof.
  intros Himg Hh Hj Hl Hok.
  rewrite (render_diagrams_main_run br w html js) by done.
  cbn zeta. cbn [fst snd w_fs w_out].
  destruct (all_jobs_ok_from br js 0 (extract_mermaid_blocks html)) as [Hr Hd];
    [done|].
  rewrite Hr, Hd. split; [done|]. split; [done|]. split; [|split].
  - intros i code png Hi Hpng.
    apply (batch_store_out _ _ _ 0 _ _ i code); [done| |done].
    rewrite Hd. by apply lookup_lt_Some in Hi.
  - intros i Hi. apply (batch_store_tmp _ _ _ 0). by rewrite Hd.
  - intros p Hp. apply batch_store_frame. intros i Hi. apply Hp. lia.
Qed.

Lemma batch_success_witness :
  (render_diagrams_main browser_rendering (sample_world two_diagrams)).1
    = Ok tt
  /\ w_out (render_diagrams_main browser_rendering
              (sample_world two_diagrams)).2 =
       ["Found 2 Mermaid diagrams";
        "  [1/2] system_overview -> 01_system_overview.png";
        "  [2/2] data_ingestion -> 02_data_ingestion.png";
        summary_line]%string
  /\ w_fs (render_diagrams_main browser_rendering
             (sample_world two_diagrams)).2
       !! out_path DIAGRAM_LABELS 1 = Some (lit "PNG")
  /\ w_fs (render_diagrams_main browser_rendering
             (sample_world two_diagrams)).2 !! tmp_path 1 = None.
Proof.
  destruct (batch_success browser_rendering (sample_world two_diagrams)
              two_diagrams sample_engine)
    as (Hr & Ho & Hout & Htmp & _); try reflexivity.
  { intros i code _. reflexivity. }
  split; [exact Hr|]. split; [rewrite Ho; reflexivity|]. split.
  - apply (Hout 1 (lit "graph LR; C-->D")); reflexivity.
  - apply Htmp. vm_compute. lia.
Defined.

(** X8. When the image directory is not a regular file and the job at
    position [i] is the first to fail, the store
    holds the captures of the jobs before it, whose ephemeral documents
    are gone; the ephemeral document of job [i] is left; and the output
    path of no diagram from [i] on has been written. *)
Theorem batch_failure_store
    (br : browser) (w : world) (html js : text) (i : nat) (code : text)
    (e : exn) :
  w_fs w !! IMG_DIR = None ->
  file_text w HTML_PATH = Some html ->
  file_text w MERMAID_JS = Some js ->
  br_launch br = true ->
  extract_mermaid_blocks html !! i = Some code ->
  (forall j c, j < i -> extract_mermaid_blocks html !! j = Some c ->
               is_ok (job_outcome (job_page br js j c)) = true) ->
  job_outcome (job_page br js i code) = Raise e ->
  (forall j c png, j < i ->
     extract_mermaid_blocks html !! j = Some c ->
     job_outcome (job_page br js j c) = Ok png ->
     w_fs (render_diagrams_main br w).2 !! out_path DIAGRAM_LABELS j
       = Some png)
  /\ (forall j, j < i ->
        w_fs (render_diagrams_main br w).2 !! tmp_path j = None)
  /\ w_fs (render_diagrams_main br w).2 !! tmp_path i
     = Some (build_single_diagram_html code js)
  /\ (forall j, i <= j ->
        w_fs (render_diagrams_main br w).2 !! out_path DIAGRAM_LABELS j
          = w_fs w !! out_path DIAGRAM_LABELS j).
Proof.
  intros Himg Hh Hj Hl Hi Hok He.
  rewrite (render_diagrams_main_run br w html js) by done.
  cbn zeta. cbn [fst snd w_fs].
  set (blocks := extract_mermaid_blocks html) in *.
  destruct (jobs_done_first_failure br js 0 blocks i code e) as [Hd Hr];
    [done..|].
  split; [|split; [|split]].
  - intros j c png Hji Hc Hpng.
    apply (batch_store_out _ _ _ 0 _ _ j c); [done|by rewrite Hd|done].
  - intros j Hji. apply (batch_store_tmp _ _ _ 0). by rewrite Hd.
  - pose proof (batch_store_failed_tmp br DIAGRAM_LABELS js 0 blocks
                  (w_fs w) code e) as H.
    rewrite Hd in H. by apply H.
  - intros j Hij.
    assert (forall n bs fs,
              jobs_done br js n bs + n <= j ->
              batch_store br DIAGRAM_LABELS js n bs fs
                !! out_path DIAGRAM_LABELS j
              = fs !! out_path DIAGRAM_LABELS j) as Hgen.
    { intros n bs. revert n.
      induction bs as [|c rest IH]; intros n fs Hn; [done|].
      cbn [batch_store jobs_done] in *. cbn zeta.
      destruct (job_outcome (job_page br js n c)) as [png|e0]; cbn [is_ok] in Hn.
      - rewrite IH by lia.
        rewrite lookup_delete_ne by apply tmp_path_not_out.
        rewrite lookup_insert_ne.
        + by rewrite lookup_insert_ne by apply tmp_path_not_out.
        + intros H. apply app_inv_head in H. injection H as H.
          apply out_name_inj in H. lia.
      - by rewrite lookup_insert_ne by apply tmp_path_not_out. }
    apply Hgen. rewrite Hd. lia.
Qed.

Lemma batch_failure_store_witness :
  w_fs (render_diagrams_main (browser_hanging_at 1)
          (sample_world two_diagrams)).2 !! out_path DIAGRAM_LABELS 0
    = Some (lit "PNG")
  /\ w_fs (render_diagrams_main (browser_hanging_at 1)
             (sample_world two_diagrams)).2 !! tmp_path 1
     = Some (build_single_diagram_html (lit "graph LR; C-->D") sample_engine)
  /\ w_fs (render_diagrams_main (browser_hanging_at 1)
             (sample_world two_diagrams)).2 !! out_path DIAGRAM_LABELS 1
     = None.
Proof.
  destruct (batch_failure_store (browser_hanging_at 1)
              (sample_world two_diagrams) two_diagrams sample_engine 1
              (lit "graph LR; C-->D") WaitTimeout)
    as (Hout & _ & Htmp & Hlater); try reflexivity.
  { intros j c Hj Hc. destruct j as [|j]; [|lia].
    vm_compute in Hc. injection Hc as <-. reflexivity. }
  split; [|split; [exact Htmp|]].
  - apply (Hout 0 (lit "graph TD; A-->B")); [lia|reflexivity..].
  - rewrite Hlater by lia. reflexivity.
Defined.

(** ** Runs that end before the first job *)

Lemma render_diagrams_main_image_dir br w t :
  w_fs w !! IMG_DIR = Some t ->
  render_diagrams_main br w = (Raise (FileExistsError IMG_DIR), w).
Proof.
  intros H. unfold render_diagrams_main, mbind, M_bind, bind, mkdir_exist_ok.
  by rewrite H.
Qed.

Lemma render_diagrams_main_missing br w :
  w_fs w !! IMG_DIR = None ->
  w_fs w !! HTML_PATH = None \/ w_fs w !! MERMAID_JS = None ->
  render_diagrams_main br w =
    (Raise (FileNotFoundError
              match w_fs w !! HTML_PATH with
              | Some _ => MERMAID_JS
              | None => HTML_PATH
              end), w).
Proof.
  intros Himg H.
  unfold render_diagrams_main, mbind, M_bind, bind, mkdir_exist_ok, read_text.
  rewrite Himg. destruct (w_fs w !! HTML_PATH) as [html|]; [|done].
  destruct H as [H|H]; [done|]. by rewrite H.
Qed.

(** X9. When the image directory is not a regular file and the source
    document or the engine asset is missing, [main] of the diagram script
    raises the file-not-found error for the missing file, the source
    document when it is missing and the asset otherwise, with the store
    and the console as they were: nothing is printed, no browser is
    launched, no file is written. *)
Theorem render_main_missing_input (br : browser) (w : world) :
  w_fs w !! IMG_DIR = None ->
  w_fs w !! HTML_PATH = None \/ w_fs w !! MERMAID_JS = None ->
  exists p,
    render_diagrams_main br w = (Raise (FileNotFoundError p), w)
    /\ w_fs w !! p = None
    /\ (w_fs w !! HTML_PATH = None -> p = HTML_PATH)
    /\ (w_fs w !! HTML_PATH <> None -> p = MERMAID_JS).
Proof.
  intros Himg H. rewrite render_diagrams_main_missing by done.
  eexists. split; [done|].
  destruct (w_fs w !! HTML_PATH) eqn:E; [|done].
  destruct H as [H|H]; done.
Qed.

Lemma render_main_missing_input_witness :
  render_diagrams_main browser_rendering
    (World (<[HTML_PATH := two_diagrams]> ∅) [])
  = (Raise (FileNotFoundError MERMAID_JS),
     World (<[HTML_PATH := two_diagrams]> ∅) []).
Proof.
  destruct (render_main_missing_input browser_rendering
              (World (<[HTML_PATH := two_diagrams]> ∅) []))
    as (p & E & _ & _ & Hp); [reflexivity|right; reflexivity|].
  rewrite E, Hp; done.
Defined.

Lemma render_main_launch_failure_aux br w html js :
  w_fs w !! IMG_DIR = None ->
  file_text w HTML_PATH = Some html ->
  file_text w MERMAID_JS = Some js ->
  br_launch br = false ->
  render_diagrams_main br w =
    (Raise LaunchError,
     World (w_fs w)
           (w_out w ++ [found_line (length (extract_mermaid_blocks html))])).
Proof.
  intros Himg Hh Hj Hl.
  unfold render_diagrams_main, mbind, M_bind, bind.
  unfold mkdir_exist_ok at 1. rewrite Himg.
  rewrite (read_text_Some _ _ _ Hh), (read_text_Some _ _ _ Hj).
  unfold print, launch. by rewrite Hl.
Qed.

(** X10. When the image directory is not a regular file and the browser
    cannot be launched, [main] of the diagram script
    raises after it has printed the count of diagrams; the store is as it
    was and no job has run. *)
Theorem render_main_launch_failure (br : browser) (w : world) (html js : text) :
  w_fs w !! IMG_DIR = None ->
  file_text w HTML_PATH = Some html ->
  file_text w MERMAID_JS = Some js ->
  br_launch br = false ->
  render_diagrams_main br w =
    (Raise LaunchError,
     World (w_fs w)
           (w_out w ++ [found_line (length (extract_mermaid_blocks html))])).
Proof. apply render_main_launch_failure_aux. Qed.

Lemma render_main_launch_failure_witness :
  render_diagrams_main browser_not_launching (sample_world two_diagrams) =
    (Raise LaunchError,
     World (w_fs (sample_world two_diagrams))
           ["Found 2 Mermaid diagrams"%string]).
Proof.
  apply (render_main_launch_failure browser_not_launching
           (sample_world two_diagrams) two_diagrams sample_engine);
    reflexivity.
Defined.

Lemma no_opener_findall s :
  no_match OPENING_TAG_RE s -> findall_from MERMAID_BLOCK_RE s 0 = [].
Proof.
  intros H. rewrite <- (app_nil_r s). by rewrite findall_gap.
Qed.

(** X11. On a document without diagram (no opening tag, or no closing tag)
    [main] of the diagram script returns normally once the image directory
    is not a regular file and the browser is launched: it prints a count of zero and the summary, and the store is
    as it was. *)
Theorem render_main_no_diagram (br : browser) (w : world) (html js : text) :
  w_fs w !! IMG_DIR = None ->
  file_text w HTML_PATH = Some html ->
  file_text w MERMAID_JS = Some js ->
  br_launch br = true ->
  no_match OPENING_TAG_RE html \/ no_match CLOSING_TAG_RE html ->
  render_diagrams_main br w =
    (Ok tt, World (w_fs w) (w_out w ++ [found_line 0; summary_line])).
Proof.
  intros Himg Hh Hj Hl Hn.
  rewrite (render_diagrams_main_run br w html js) by done.
  assert (extract_mermaid_blocks html = []) as ->; [|done].
  destruct Hn; [by apply no_opener_findall|by apply no_closer_findall].
Qed.

Lemma render_main_no_diagram_witness :
  render_diagrams_main browser_rendering (sample_world sample_prefix) =
    (Ok tt,
     World (w_fs (sample_world sample_prefix))
           ["Found 0 Mermaid diagrams"%string; summary_line]).
Proof.
  apply (render_main_no_diagram browser_rendering
           (sample_world sample_prefix) sample_prefix sample_engine);
    try reflexivity.
  left. reflexivity.
Defined.

(** ** What the diagram script never writes *)

Lemma render_diagrams_main_store br w :
  w_fs (render_diagrams_main br w).2 = w_fs w
  \/ exists html js,
       w_fs (render_diagrams_main br w).2 =
         batch_store br DIAGRAM_LABELS js 0 (extract_mermaid_blocks html)
                     (w_fs w).
Proof.
  destruct (w_fs w !! IMG_DIR) as [t|] eqn:Himg;
    [left; by rewrite (render_diagrams_main_image_dir br w t)|].
  destruct (file_text w HTML_PATH) as [html|] eqn:Hh.
  2:{ left. rewrite render_diagrams_main_missing; [done|done|].
      left. unfold file_text in Hh. by destruct (w_fs w !! HTML_PATH). }
  destruct (file_text w MERMAID_JS) as [js|] eqn:Hj.
  2:{ left. rewrite render_diagrams_main_missing; [done|done|].
      right. unfold file_text in Hj. by destruct (w_fs w !! MERMAID_JS). }
  destruct (br_launch br) eqn:Hl.
  - right. exists html, js.
    by rewrite (render_diagrams_main_run br w html js) by done.
  - left. by rewrite (render_main_launch_failure_aux br w html js) by done.
Qed.

(** X12. Whatever the browser does and however [main] of the diagram
    script ends, the paths it changes in the store are ephemeral paths and
    output paths only: the source document and the engine asset keep
    their content. *)
Theorem render_main_frame (br : browser) (w : world) (p : path) :
  (forall i, p <> tmp_path i /\ p <> out_path DIAGRAM_LABELS i) ->
  w_fs (render_diagrams_main br w).2 !! p = w_fs w !! p
  /\ w_fs (render_diagrams_main br w).2 !! HTML_PATH = w_fs w !! HTML_PATH
  /\ w_fs (render_diagrams_main br w).2 !! MERMAID_JS = w_fs w !! MERMAID_JS.
Proof.
  intros Hp.
  destruct (render_diagrams_main_store br w) as [->|(html & js & ->)];
    [done|].
  split; [|split]; apply batch_store_frame; intros i _; [apply Hp|done..].
Qed.

Lemma render_main_frame_witness :
  w_fs (render_diagrams_main (browser_hanging_at 1)
          (sample_world two_diagrams)).2 !! PDF_PATH = None
  /\ w_fs (render_diagrams_main (browser_hanging_at 1)
             (sample_world two_diagrams)).2 !! HTML_PATH = Some two_diagrams.
Proof.
  destruct (render_main_frame (browser_hanging_at 1)
              (sample_world two_diagrams) PDF_PATH) as (H1 & H2 & _);
    [done|].
  split; [rewrite H1|rewrite H2]; reflexivity.
Defined.

Lemma slide_images_are_outputs :
  SLIDE_DIAGRAM_IMAGES = map (out_name DIAGRAM_LABELS) (seq 0 11).
Proof. reflexivity. Qed.

(** X13. The images that the slide deck of [build_pptx.py] reads are the
    output files of the first eleven diagrams: after a run of the diagram
    script in which the image directory is not a regular file and every
    job succeeds, on a document with at least eleven diagrams, each of them
    is in the store. *)
Theorem slide_images_rendered (br : browser) (w : world) (html js : text)
    (name : string) :
  w_fs w !! IMG_DIR = None ->
  file_text w HTML_PATH = Some html ->
  file_text w MERMAID_JS = Some js ->
  br_launch br = true ->
  all_jobs_ok br js (extract_mermaid_blocks html) ->
  11 <= length (extract_mermaid_blocks html) ->
  name ∈ SLIDE_DIAGRAM_IMAGES ->
  is_Some (w_fs (render_diagrams_main br w).2 !! (IMG_DIR ++ [name])).
Proof.
  intros Himg Hh Hj Hl Hok Hlen Hname.
  rewrite (render_diagrams_main_run br w html js) by done.
  cbn zeta. cbn [snd w_fs].
  destruct (all_jobs_ok_from br js 0 (extract_mermaid_blocks html)) as [_ Hd];
    [done|].
  assert (exists i, i < 11 /\ name = out_name DIAGRAM_LABELS i) as (i & Hi & ->).
  { rewrite slide_images_are_outputs in Hname.
    apply list_elem_of_fmap in Hname as (i & -> & Hi).
    apply elem_of_seq in Hi. exists i. split; [lia|done]. }
  destruct (lookup_lt_is_Some_2 (extract_mermaid_blocks html) i) as [code Hc];
    [lia|].
  pose proof (Hok i code Hc) as Hi_ok.
  destruct (job_outcome (job_page br js i code)) as [png|] eqn:E; [|done].
  exists png. apply (batch_store_out _ _ _ 0 _ _ i code); [done| |done].
  rewrite Hd. lia.
Qed.

Lemma slide_images_rendered_witness :
  is_Some (w_fs (render_diagrams_main browser_rendering
                   (sample_world eleven_diagrams)).2
             !! (IMG_DIR ++ ["08_contract_lifecycle.png"%string])).
Proof.
  apply (slide_images_rendered browser_rendering (sample_world eleven_diagrams)
           eleven_diagrams sample_engine); try reflexivity.
  - intros i code _. reflexivity.
  - apply (bool_decide_unpack _). by vm_compute.
Defined.

(** ** The document export, end to end *)

Lemma generate_pdf_main_full br w html js :
  file_text w HTML_PATH = Some html -> file_text w MERMAID_JS = Some js ->
  generate_pdf_main br w =
    (match export_outcome br (offline_html html js) with
     | Ok _ => Ok tt
     | Raise e => Raise e
     end,
     World (delete OFFLINE_TMP
              match export_outcome br (offline_html html js) with
              | Ok bytes =>
                  <[PDF_PATH := bytes]>
                    (<[OFFLINE_TMP := offline_html html js]> (w_fs w))
              | Raise _ => <[OFFLINE_TMP := offline_html html js]> (w_fs w)
              end)
           (w_out w
            ++ export_console (export_outcome br (offline_html html js)))).
Proof.
  intros Hh Hj.
  unfold generate_pdf_main, mbind, M_bind, bind.
  rewrite (build_offline_html_run w html js Hh Hj).
  unfold try_finally, export_body, export_outcome, export_console.
  unfold mbind, M_bind, bind, launch, goto, wait_for_function, pdf.
  unfold print, unlink, write_text, ret, raise. cbn [w_fs w_out].
  destruct (br_launch br); [|done]. cbn [w_fs w_out].
  rewrite lookup_insert_eq.
  destruct (pg_goto (br_page br 0 (offline_html html js))); [|done].
  destruct (existsb all_diagrams_ready
              (pg_polls (br_page br 0 (offline_html html js)))); [|done].
  destruct (pg_pdf (br_page br 0 (offline_html html js)));
    cbn [w_fs w_out]; by rewrite <- !app_assoc.
Qed.

(** X14. Once the bundler has written its file, the document export
    removes it however the export ends: success, launch failure,
    navigation timeout, rendering timeout or failed PDF export. *)
Theorem export_removes_ephemeral_file
    (br : browser) (w : world) (html js : text) :
  file_text w HTML_PATH = Some html ->
  file_text w MERMAID_JS = Some js ->
  w_fs (generate_pdf_main br w).2 !! OFFLINE_TMP = None.
Proof. apply generate_pdf_main_removes_tmp. Qed.

Lemma export_removes_ephemeral_file_witness :
  w_fs (generate_pdf_main browser_not_launching
          (sample_world two_references)).2 !! OFFLINE_TMP = None.
Proof.
  apply (export_removes_ephemeral_file browser_not_launching
           (sample_world two_references) two_references sample_engine);
    reflexivity.
Defined.

(** X15. When the browser is launched, the page loads, some evaluation of
    the predicate finds every diagram rendered and the PDF export succeeds,
    [main] of the export script returns normally: the PDF is at its path,
    the console shows the three lines of a complete run, and every path but
    that of the PDF and the ephemeral one is as it was. *)
Theorem export_success
    (br : browser) (w : world) (html js bytes : text) :
  file_text w HTML_PATH = Some html ->
  file_text w MERMAID_JS = Some js ->
  export_outcome br (offline_html html js) = Ok bytes ->
  (generate_pdf_main br w).1 = Ok tt
  /\ w_fs (generate_pdf_main br w).2 !! PDF_PATH = Some bytes
  /\ w_out (generate_pdf_main br w).2 =
       w_out w ++ ["Loading offline HTML: _process_flows_offline.html";
                   "All Mermaid diagrams rendered.";
                   "PDF saved to " +:+ path_str PDF_PATH]%string
  /\ (forall p, p <> PDF_PATH -> p <> OFFLINE_TMP ->
        w_fs (generate_pdf_main br w).2 !! p = w_fs w !! p).
Proof.
  intros Hh Hj He. rewrite (generate_pdf_main_full br w html js) by done.
  rewrite He. cbn [fst snd w_fs w_out]. split; [done|]. split; [|split].
  - rewrite lookup_delete_ne by done. apply lookup_insert_eq.
  - done.
  - intros p Hp Ht. by rewrite lookup_delete_ne, !lookup_insert_ne.
Qed.

Lemma export_success_witness :
  (generate_pdf_main browser_rendering (sample_world two_references)).1
    = Ok tt
  /\ w_fs (generate_pdf_main browser_rendering
             (sample_world two_references)).2 !! PDF_PATH
     = Some (lit "%PDF").
Proof.
  destruct (export_success browser_rendering (sample_world two_references)
              two_references sample_engine (lit "%PDF"))
    as (H1 & H2 & _); try reflexivity.
  by split.
Defined.

(** X16. When the export fails after the bundler has run, [main] of the
    export script raises the error of the failing step; the store is the
    store it started from, less the ephemeral path: no PDF is written or
    replaced; and the console has no line announcing a saved PDF. *)
Theorem export_failure
    (br : browser) (w : world) (html js : text) (e : exn) :
  file_text w HTML_PATH = Some html ->
  file_text w MERMAID_JS = Some js ->
  export_outcome br (offline_html html js) = Raise e ->
  (generate_pdf_main br w).1 = Raise e
  /\ w_fs (generate_pdf_main br w).2 = delete OFFLINE_TMP (w_fs w)
  /\ w_fs (generate_pdf_main br w).2 !! PDF_PATH = w_fs w !! PDF_PATH
  /\ (("PDF saved to " +:+ path_str PDF_PATH)%string
       ∈ w_out (generate_pdf_main br w).2 ->
      ("PDF saved to " +:+ path_str PDF_PATH)%string ∈ w_out w).
Proof.
  intros Hh Hj He. rewrite (generate_pdf_main_full br w html js) by done.
  rewrite He. cbn [fst snd w_fs w_out]. split; [done|].
  rewrite delete_insert_eq. split; [done|]. split.
  - by rewrite lookup_delete_ne.
  - rewrite elem_of_app. intros [H|H]; [done|]. exfalso.
    unfold export_console in H. destruct e; cbn in H;
      repeat (apply elem_of_cons in H as [H|H]; [done|]);
      by apply elem_of_nil in H.
Qed.

Lemma export_failure_witness :
  (generate_pdf_main browser_without_diagrams
     (sample_world two_references)).1 = Raise WaitTimeout
  /\ w_fs (generate_pdf_main browser_without_diagrams
             (sample_world two_references)).2
     = delete OFFLINE_TMP (w_fs (sample_world two_references)).
Proof.
  destruct (export_failure browser_without_diagrams
              (sample_world two_references) two_references sample_engine
              WaitTimeout) as (H1 & H2 & _); try reflexivity.
  by split.
Defined.

(** X17. When the source document or the engine asset is missing, the
    bundler raises before it writes, and [main] of the export script ends
    with that error without entering its cleanup: the world is as it was,
    a file left at the ephemeral path by an earlier run included. *)
Theorem export_missing_input (br : browser) (w : world) :
  w_fs w !! HTML_PATH = None \/ w_fs w !! MERMAID_JS = None ->
  exists p,
    generate_pdf_main br w = (Raise (FileNotFoundError p), w)
    /\ w_fs w !! p = None
    /\ (w_fs w !! HTML_PATH = None -> p = HTML_PATH).
Proof.
  intros H.
  unfold generate_pdf_main, build_offline_html, mbind, M_bind, bind, read_text.
  destruct (w_fs w !! HTML_PATH) as [html|] eqn:Hh.
  - destruct H as [H|H]; [done|]. rewrite H. by exists MERMAID_JS.
  - by exists HTML_PATH.
Qed.

Lemma export_missing_input_witness :
  exists p,
    generate_pdf_main browser_rendering
      (World (<[OFFLINE_TMP := lit "stale"]> (<[HTML_PATH := two_references]> ∅)) [])
    = (Raise (FileNotFoundError p),
       World (<[OFFLINE_TMP := lit "stale"]> (<[HTML_PATH := two_references]> ∅)) [])
    /\ p = MERMAID_JS.
Proof.
  destruct (export_missing_input browser_rendering
              (World (<[OFFLINE_TMP := lit "stale"]>
                        (<[HTML_PATH := two_references]> ∅)) []))
    as (p & E & Hp & _); [right; reflexivity|].
  exists p. split; [exact E|].
  injection E as E. exact (eq_sym E).
Defined.

(** ** The two waiting predicates and the captured element *)

(** X18. The predicate of the document export holds exactly when the
    predicate of a diagram job holds and every container of the page is
    rendered: it is the stronger of the two, and they agree on a page with
    one container. *)
Theorem export_predicate_stronger (d : dom) :
  all_diagrams_ready d = true
  <-> diagram_ready d = true /\ Forall (fun c => rendered c = true) d.
Proof.
  unfold all_diagrams_ready. rewrite andb_true_iff, forallb_forall.
  rewrite Forall_forall. setoid_rewrite list_elem_of_In.
  destruct d as [|c d]; simpl.
  - split; [by intros [? _]|by intros [? _]].
  - split.
    + intros [_ H]. split; [|done]. apply H. by left.
    + intros [_ H]. done.
Qed.

Lemma export_predicate_stronger_witness :
  diagram_ready [Container (Some "true"%string) false; Container None true]
    = true
  /\ Forall (fun c => rendered c = true)
            [Container (Some "true"%string) false; Container None true].
Proof.
  apply export_predicate_stronger. reflexivity.
Defined.

Lemma capture_target_None d : capture_target d = None <-> d = [].
Proof.
  unfold capture_target, query_mermaid_svg, query_mermaid.
  destruct d as [|c d]; [done|]. by destruct (existsb c_has_svg (c :: d)).
Qed.

(** X19. A render job ends by the error of the missing element exactly
    when navigation succeeded, the predicate held at some evaluation, and
    the page after the settle delay has no container left. *)
Theorem missing_element_error
    (br : browser) (labels : list string) (js : text) (total i : nat)
    (code : text) (w : world) :
  (render_job br labels js total i code w).1 = Raise AttributeError
  <-> pg_goto (job_page br js i code) = true
      /\ existsb diagram_ready (pg_polls (job_page br js i code)) = true
      /\ pg_settled (job_page br js i code) = [].
Proof.
  rewrite render_job_run. cbn zeta. unfold job_outcome.
  rewrite <- capture_target_None.
  destruct (pg_goto (job_page br js i code)); [|by split; [|intros [? _]]].
  destruct (existsb diagram_ready (pg_polls (job_page br js i code)));
    [|by split; [|intros (_ & ? & _)]].
  destruct (capture_target (pg_settled (job_page br js i code))) as [el|];
    [|done].
  destruct (pg_shot (job_page br js i code) el);
    by split; [|intros (_ & _ & ?)].
Qed.

Lemma missing_element_error_witness :
  (render_job (Browser true (fun _ _ =>
                 Page true [[Container None true]] []
                      (fun _ => Some (lit "PNG")) None))
              DIAGRAM_LABELS sample_engine 1 0 (lit "graph TD; A-->B")
              (sample_world two_diagrams)).1
  = Raise AttributeError.
Proof. apply missing_element_error. by repeat split. Defined.

(** X20. A render job that succeeds has written, at its output path, the
    capture of the vector graphic when a container of the settled page
    holds one, and the capture of the container otherwise. *)
Theorem captured_element
    (br : browser) (labels : list string) (js : text) (total i : nat)
    (code : text) (w : world) :
  (render_job br labels js total i code w).1 = Ok tt ->
  w_fs (render_job br labels js total i code w).2 !! out_path labels i
    = pg_shot (job_page br js i code)
        (if existsb c_has_svg (pg_settled (job_page br js i code))
         then SvgChild else ContainerEl)
  /\ is_Some (w_fs (render_job br labels js total i code w).2
                !! out_path labels i).
Proof.
  rewrite render_job_run. cbn zeta. unfold job_outcome.
  destruct (pg_goto (job_page br js i code)); [|done].
  destruct (existsb diagram_ready (pg_polls (job_page br js i code)));
    [|done].
  unfold capture_target, query_mermaid_svg, query_mermaid.
  destruct (existsb c_has_svg (pg_settled (job_page br js i code))).
  - destruct (pg_shot (job_page br js i code) SvgChild) as [png|] eqn:E;
      [|done].
    intros _. cbn [snd w_fs].
    rewrite lookup_delete_ne by apply tmp_not_out.
    by rewrite lookup_insert_eq.
  - destruct (pg_settled (job_page br js i code)) as [|c d]; [done|].
    destruct (pg_shot (job_page br js i code) ContainerEl) as [png|] eqn:E;
      [|done].
    intros _. cbn [snd w_fs].
    rewrite lookup_delete_ne by apply tmp_not_out.
    by rewrite lookup_insert_eq.
Qed.

Lemma captured_element_witness :
  w_fs (render_job (Browser true (fun _ _ =>
                      Page true [[Container None true]]
                           [Container None false; Container None true]
                           (fun el => match el with
                                      | SvgChild => Some (lit "SVG")
                                      | ContainerEl => Some (lit "DIV")
                                      end) None))
                   DIAGRAM_LABELS sample_engine 1 0 (lit "graph TD; A-->B")
                   (sample_world two_diagrams)).2
    !! out_path DIAGRAM_LABELS 0
  = Some (lit "SVG").
Proof.
  apply captured_element. reflexivity.
Defined.
